(** * flake2date: the reconciliation engine of [checkUp2Date_v3.py]

    A shallow embedding of the script that compares the [lastModified]
    instant of every GitHub input of a Nix [flake.lock] with the committer
    date of the tip of the tracked upstream branch.

    The embedding follows [src/checkUp2Date_v3.py] function by function
    ([get_token_from_gh_cli], [get_upstream_info], [check_input], [main]);
    the fallback loop of [src/checkUp2Date_v2.py] is embedded next to the one
    of v3 for comparison.

    What the script does to the outside world is kept explicit:
    - every [requests.get] is appended to a log of requests and answered by
      a [network], a function of the requests sent so far and of the new one;
    - every [print] appends one [line] to the output;
    - every run of the credential helper is counted;
    - a Python exception is a result [Raise e]; the effects performed before
      it was raised stay in the state, as they do in Python. *)

From Stdlib Require Import ZArith List String Ascii Bool Lia.
Import ListNotations.
Local Open Scope string_scope.
Local Open Scope list_scope.
Local Open Scope Z_scope.
#[local] Set Warnings "-register-all".

(** ** Python values as [json.load] produces them *)

(** A [dict] is kept as the list of its items in insertion order, which is
    the order [dict.items()] iterates in; the keys of a loaded JSON object
    are strings, and a lookup takes the first item with the key.  Lock files
    hold integers only, so a number is a [Z] (Python integers are
    unbounded). *)
Inductive json : Type :=
| JNull
| JBool (b : bool)
| JInt (z : Z)
| JStr (s : string)
| JArr (l : list json)
| JObj (items : list (string * json)).

Inductive exn : Type :=
| KeyError
| TypeError
| AttributeError
| ValueError
| OverflowError
| RequestException      (* raised by requests.get itself *)
| HTTPError             (* raised by raise_for_status; a RequestException *)
| JSONDecodeError       (* raised by Response.json; a RequestException *)
| FileNotFoundError
| CalledProcessError
| PermissionError
| SystemExit            (* sys.exit(1) *)
| OSError
| UnicodeDecodeError.   (* a ValueError; raised where output is decoded *)

(** [except requests.RequestException] *)
Definition is_RequestException (e : exn) : bool :=
  match e with
  | RequestException | HTTPError | JSONDecodeError => true
  | _ => false
  end.

(** [except KeyError] *)
Definition is_KeyError (e : exn) : bool :=
  match e with
  | KeyError => true
  | _ => false
  end.

(** [except (FileNotFoundError, subprocess.CalledProcessError)] *)
Definition is_helper_failure (e : exn) : bool :=
  match e with
  | FileNotFoundError | CalledProcessError => true
  | _ => false
  end.

Inductive res (A : Type) : Type :=
| Ret (a : A)
| Raise (e : exn).
Arguments Ret {A} a.
Arguments Raise {A} e.

Fixpoint dict_find (k : string) (items : list (string * json)) : option json :=
  match items with
  | [] => None
  | (k', v) :: tl => if String.eqb k k' then Some v else dict_find k tl
  end.

(** [v[k]] for a string key [k] *)
Definition getitem (v : json) (k : string) : res json :=
  match v with
  | JObj items =>
      match dict_find k items with
      | Some x => Ret x
      | None => Raise KeyError
      end
  | _ => Raise TypeError
  end.

(** [v.get(k, default)] for a string key [k] *)
Definition get_default (v : json) (k : string) (default : json) : res json :=
  match v with
  | JObj items =>
      match dict_find k items with
      | Some x => Ret x
      | None => Ret default
      end
  | _ => Raise AttributeError
  end.

(** [v.get(k)] *)
Definition get (v : json) (k : string) : res json := get_default v k JNull.

(** [d.get(key, default)] where the key is itself a loaded value: a list or
    a dict is unhashable, and no other non-string equals a string key. *)
Definition get_by_value (v : json) (key : json) (default : json) : res json :=
  match v with
  | JObj items =>
      match key with
      | JStr k => get_default v k default
      | JArr _ | JObj _ => Raise TypeError
      | _ => Ret default
      end
  | _ => Raise AttributeError
  end.

(** [bool(v)] *)
Definition truthy (v : json) : bool :=
  match v with
  | JNull => false
  | JBool b => b
  | JInt z => negb (z =? 0)
  | JStr s => negb (String.eqb s "")
  | JArr l => match l with [] => false | _ => true end
  | JObj l => match l with [] => false | _ => true end
  end.

(** [v != "github"] *)
Definition ne_github (v : json) : bool :=
  match v with
  | JStr s => negb (String.eqb s "github")
  | _ => true
  end.

(** [isinstance(v, str)] *)
Definition is_str (v : json) : bool :=
  match v with
  | JStr _ => true
  | _ => false
  end.

(** The value of a Python number used as a timestamp ([bool] is a subclass
    of [int]); anything else makes [datetime.fromtimestamp] raise
    [TypeError]. *)
Definition as_int (v : json) : res Z :=
  match v with
  | JInt z => Ret z
  | JBool b => Ret (if b then 1 else 0)
  | _ => Raise TypeError
  end.

(** [v.items()] *)
Definition items (v : json) : res (list (string * json)) :=
  match v with
  | JObj l => Ret l
  | _ => Raise AttributeError
  end.

Fixpoint is_substring (a s : string) : bool :=
  String.prefix a s ||
  match s with
  | String _ tl => is_substring a tl
  | EmptyString => false
  end.

(** [k in v] for a string [k]: a key of a dict, an element of a list, a
    substring of a string. *)
Definition contains (v : json) (k : string) : res bool :=
  match v with
  | JObj l => Ret (match dict_find k l with Some _ => true | None => false end)
  | JArr l => Ret (existsb (fun x => match x with JStr s => String.eqb s k | _ => false end) l)
  | JStr s => Ret (is_substring k s)
  | _ => Raise TypeError
  end.

(** A credential is [None] or a [str]. *)
Definition token_truthy (token : option string) : bool :=
  match token with
  | Some s => negb (String.eqb s "")
  | None => false
  end.

(** ** [datetime.strptime(date_str, "%Y-%m-%dT%H:%M:%SZ")]

    The standard library turns the format into a regular expression,
    compiled with [IGNORECASE], that must match the whole string:
    [%Y] is [\d\d\d\d], [%m] is [1[0-2]|0[1-9]|[1-9]], [%d] is
    [3[0-1]|[1-2]\d|0[1-9]|[1-9]| [1-9]], [%H] is [2[0-3]|[0-1]\d|\d],
    [%M] is [[0-5]\d|\d] and [%S] is [6[0-1]|[0-5]\d|\d].  Every field is
    followed by a character that is not a digit, so taking the first
    alternative that matches is what the backtracking matcher does.  The
    fields are then given to the [datetime] constructor, which refuses a
    year outside 1..9999, a day the month does not have and a second above
    59.  Every failure is a [ValueError].  Characters are code points below
    256, among which the decimal digits are the ASCII ones. *)

Definition digit (c : ascii) : option Z :=
  let n := Z.of_N (N_of_ascii c) in
  if (48 <=? n) && (n <=? 57) then Some (n - 48) else None.

Definition field : Type := string -> option (Z * string).

Definition two_digits (p1 p2 : Z -> bool) : field := fun s =>
  match s with
  | String c1 (String c2 tl) =>
      match digit c1, digit c2 with
      | Some d1, Some d2 => if p1 d1 && p2 d2 then Some (10 * d1 + d2, tl) else None
      | _, _ => None
      end
  | _ => None
  end.

Definition one_digit (p : Z -> bool) : field := fun s =>
  match s with
  | String c tl =>
      match digit c with
      | Some d => if p d then Some (d, tl) else None
      | None => None
      end
  | _ => None
  end.

Definition space_digit (p : Z -> bool) : field := fun s =>
  match s with
  | String " " tl => one_digit p tl
  | _ => None
  end.

Fixpoint first_of (alts : list field) : field := fun s =>
  match alts with
  | [] => None
  | f :: tl => match f s with Some r => Some r | None => first_of tl s end
  end.

Definition any_digit (d : Z) : bool := true.
Definition between (lo hi d : Z) : bool := (lo <=? d) && (d <=? hi).

Definition field_Y : field := fun s =>
  match s with
  | String c1 (String c2 (String c3 (String c4 tl))) =>
      match digit c1, digit c2, digit c3, digit c4 with
      | Some d1, Some d2, Some d3, Some d4 =>
          Some (1000 * d1 + 100 * d2 + 10 * d3 + d4, tl)
      | _, _, _, _ => None
      end
  | _ => None
  end.

Definition field_m : field :=
  first_of [two_digits (between 1 1) (between 0 2);
            two_digits (between 0 0) (between 1 9);
            one_digit (between 1 9)].

Definition field_d : field :=
  first_of [two_digits (between 3 3) (between 0 1);
            two_digits (between 1 2) any_digit;
            two_digits (between 0 0) (between 1 9);
            one_digit (between 1 9);
            space_digit (between 1 9)].

Definition field_H : field :=
  first_of [two_digits (between 2 2) (between 0 3);
            two_digits (between 0 1) any_digit;
            one_digit any_digit].

Definition field_M : field :=
  first_of [two_digits (between 0 5) any_digit; one_digit any_digit].

Definition field_S : field :=
  first_of [two_digits (between 6 6) (between 0 1);
            two_digits (between 0 5) any_digit;
            one_digit any_digit].

(** A literal character of the format, matched without regard to case. *)
Definition literal (upper lower : ascii) (s : string) : option string :=
  match s with
  | String c tl =>
      if Ascii.eqb c upper || Ascii.eqb c lower then Some tl else None
  | _ => None
  end.

Definition is_leap (y : Z) : bool :=
  (y mod 4 =? 0) && (negb (y mod 100 =? 0) || (y mod 400 =? 0)).

Definition days_in_month (y m : Z) : Z :=
  if m =? 2 then (if is_leap y then 29 else 28)
  else if (m =? 4) || (m =? 6) || (m =? 9) || (m =? 11) then 30
  else 31.

(** [_days_before_month]: days of the year before the first of month [m] *)
Definition days_before_month (y m : Z) : Z :=
  nth (Z.to_nat m) [0; 0; 31; 59; 90; 120; 151; 181; 212; 243; 273; 304; 334] 0
  + (if (2 <? m) && is_leap y then 1 else 0).

(** [_days_before_year] *)
Definition days_before_year (year : Z) : Z :=
  let y := year - 1 in
  y * 365 + y / 4 - y / 100 + y / 400.

(** [_ymd2ord]: the proleptic Gregorian ordinal, 1 for 0001-01-01 *)
Definition ymd2ord (y m d : Z) : Z :=
  days_before_year y + days_before_month y m + d.

(** [int(dt_utc.timestamp())] for the UTC date and time given by its
    fields: the seconds since 1970-01-01T00:00:00Z, whose ordinal is
    719163. *)
Definition utc_timestamp (y mo d h mi s : Z) : Z :=
  (ymd2ord y mo d - 719163) * 86400 + h * 3600 + mi * 60 + s.

(** The epoch seconds of a wire timestamp, [None] for [ValueError]. *)
Definition strptime_timestamp (date_str : string) : option Z :=
  match field_Y date_str with
  | None => None
  | Some (y, s1) =>
  match literal "-" "-" s1 with
  | None => None
  | Some s2 =>
  match field_m s2 with
  | None => None
  | Some (mo, s3) =>
  match literal "-" "-" s3 with
  | None => None
  | Some s4 =>
  match field_d s4 with
  | None => None
  | Some (d, s5) =>
  match literal "T" "t" s5 with
  | None => None
  | Some s6 =>
  match field_H s6 with
  | None => None
  | Some (h, s7) =>
  match literal ":" ":" s7 with
  | None => None
  | Some s8 =>
  match field_M s8 with
  | None => None
  | Some (mi, s9) =>
  match literal ":" ":" s9 with
  | None => None
  | Some s10 =>
  match field_S s10 with
  | None => None
  | Some (sec, s11) =>
  match literal "Z" "z" s11 with
  | Some EmptyString =>
      if (1 <=? y) && (d <=? days_in_month y mo) && (sec <=? 59)
      then Some (utc_timestamp y mo d h mi sec)
      else None
  | _ => None
  end end end end end end end end end end end end.

(** [datetime.strptime(...)] followed by [int(dt_utc.timestamp())], applied
    to whatever value the response holds: a value that is not a [str] is a
    [TypeError]. *)
Definition parse_date (date_str : json) : res Z :=
  match date_str with
  | JStr s =>
      match strptime_timestamp s with
      | Some ts => Ret ts
      | None => Raise ValueError
      end
  | _ => Raise TypeError
  end.

(** ** The outside world *)

(** The URL of a request.  The f-string interpolates the Python values of
    the node, which are kept as they are. *)
Inductive url : Type :=
| RepoUrl (owner repo : json)
    (* https://api.github.com/repos/{owner}/{repo} *)
| BranchUrl (owner repo branch : json).
    (* https://api.github.com/repos/{owner}/{repo}/branches/{branch} *)

Record request : Type := mkRequest {
  req_url : url;
  req_headers : list (string * string)
}.

(** What [requests.get] gives back: it raises, or returns a response with a
    status code and a body, [None] when the body is not JSON. *)
Inductive http_result : Type :=
| NoResponse
| Response (status : Z) (body : option json).

(** The answer to a request may depend on every request sent before it. *)
Definition network : Type := list request -> request -> http_result.

(** Why a host cannot show an instant: the local year leaves 1..9999
    ([ValueError]), the instant does not fit the platform's [time_t]
    ([OverflowError]), or the platform's [localtime] gives up ([OSError]). *)
Inductive range_error : Type :=
| YearOutOfRange
| TimestampOutOfRange
| PlatformRefuses.

Definition range_exn (k : range_error) : exn :=
  match k with
  | YearOutOfRange => ValueError
  | TimestampOutOfRange => OverflowError
  | PlatformRefuses => OSError
  end.

(** The host's local time zone.  The first two fields stand for the text
    that [print] shows for the zone-aware local [datetime] of an instant:
    [datetime.fromtimestamp(ts).astimezone()] for the locked instant and
    [dt_utc.astimezone()] for the upstream one.  [None] stands for an
    instant whose local time the host cannot represent; the conversion then
    raises an exception that no handler of the script catches: for the
    locked instant the one [fromtimestamp_error] names, for the upstream
    instant [OverflowError]. *)
Record host : Type := mkHost {
  fromtimestamp_astimezone : Z -> option string;
  utc_astimezone : Z -> option string;
  fromtimestamp_error : Z -> range_error
}.

(** [dt_utc.astimezone()] *)
Definition from_host (o : option string) : res string :=
  match o with
  | Some dt => Ret dt
  | None => Raise OverflowError
  end.

(** [datetime.fromtimestamp(ts).astimezone()] *)
Definition from_fromtimestamp (tz : host) (ts : Z) : res string :=
  match fromtimestamp_astimezone tz ts with
  | Some dt => Ret dt
  | None => Raise (range_exn (fromtimestamp_error tz ts))
  end.

(** What [subprocess.run(["gh", "auth", "token"], capture_output=True,
    text=True, check=True)] finds. *)
Inductive helper : Type :=
| HelperMissing                             (* no gh executable *)
| HelperDenied                              (* gh is there and cannot be run *)
| HelperExited (returncode : Z) (stdout : string)
| HelperGarbled.      (* gh ran; its output is not text in the locale's encoding *)

(** One [print] call. *)
Inductive line : Type :=
| LChecking (name : string) (owner repo : json)
| LCouldNotFetch
| LUpdateAvailable
| LLocal (dt : string)
| LUpstream (dt : string)
| LLag (seconds : Z)
| LLocalAhead (seconds : Z)
| LUpToDate
| LSeparator
| LTip
| LNoInputs
| LNotFound (flake_input : string)
| LNoRootInputs.            (* v2: "Could not find root inputs structure. ..." *)

Record io : Type := mkIo {
  sent : list request;      (* the requests issued, oldest first *)
  out : list line;          (* the lines printed, oldest first *)
  helper_runs : nat         (* how often the credential helper was started *)
}.

Definition io0 : io := mkIo [] [] 0.

(** ** Computations without effects: exceptions only *)

Definition rbind {A B} (r : res A) (k : A -> res B) : res B :=
  match r with
  | Ret a => k a
  | Raise e => Raise e
  end.

(** [try: r  except <handles>: handler] *)
Definition rtry {A} (r : res A) (handles : exn -> bool) (handler : res A) : res A :=
  match r with
  | Raise e => if handles e then handler else Raise e
  | Ret a => Ret a
  end.

Declare Scope res_scope.
Delimit Scope res_scope with res.
Notation "x <-- c ;; k" := (rbind c (fun x => k))
  (at level 61, c at next level, right associativity) : res_scope.

(** ** Effects: state passing with exceptions *)

Definition M (A : Type) : Type := io -> res A * io.

Definition ret {A} (a : A) : M A := fun s => (Ret a, s).

Definition raise {A} (e : exn) : M A := fun s => (Raise e, s).

Definition bind {A B} (c : M A) (k : A -> M B) : M B := fun s =>
  match c s with
  | (Ret a, s') => k a s'
  | (Raise e, s') => (Raise e, s')
  end.

(** [try: c  except <handles>: handler] *)
Definition try_except {A} (c : M A) (handles : exn -> bool) (handler : M A) : M A :=
  fun s =>
    match c s with
    | (Raise e, s') => if handles e then handler s' else (Raise e, s')
    | r => r
    end.

Definition lift {A} (r : res A) : M A := fun s => (r, s).

Declare Scope py_scope.
Delimit Scope py_scope with py.
Notation "x <- c ;; k" := (bind c (fun x => k))
  (at level 61, c at next level, right associativity) : py_scope.
Notation "c ;;; k" := (bind c (fun _ => k))
  (at level 61, right associativity) : py_scope.
Local Open Scope py_scope.

Definition print (l : line) : M unit := fun s =>
  (Ret tt, mkIo (sent s) (out s ++ [l]) (helper_runs s)).

Fixpoint for_each {A} (body : A -> M unit) (l : list A) : M unit :=
  match l with
  | [] => ret tt
  | x :: tl => body x ;;; for_each body tl
  end.

(** ** [get_token_from_gh_cli] *)

(** Python's [str.isspace] on the code points below 256. *)
Definition is_space (c : ascii) : bool :=
  let n := Z.of_N (N_of_ascii c) in
  between 9 13 n || between 28 32 n || (n =? 133) || (n =? 160).

Fixpoint lstrip (s : string) : string :=
  match s with
  | String c tl => if is_space c then lstrip tl else s
  | EmptyString => EmptyString
  end.

Fixpoint rstrip (s : string) : string :=
  match s with
  | String c tl =>
      match rstrip tl with
      | EmptyString => if is_space c then EmptyString else String c EmptyString
      | r => String c r
      end
  | EmptyString => EmptyString
  end.

(** [str.strip()] *)
Definition strip (s : string) : string := rstrip (lstrip s).

(** [headers = {}], then [if token: headers["Authorization"] = f"token {token}"] *)
Definition auth_headers (token : option string) : list (string * string) :=
  match token with
  | Some t => if token_truthy token then [("Authorization", String.append "token " t)] else []
  | None => []
  end.

Section Run.

Variable gh : helper.

Definition subprocess_run : M string := fun s =>
  let s' := mkIo (sent s) (out s) (S (helper_runs s)) in
  match gh with
  | HelperMissing => (Raise FileNotFoundError, s')
  | HelperDenied => (Raise PermissionError, s')
  | HelperExited returncode stdout =>
      if returncode =? 0 then (Ret stdout, s') else (Raise CalledProcessError, s')
  | HelperGarbled => (Raise UnicodeDecodeError, s')
  end.

Definition get_token_from_gh_cli : M (option string) :=
  try_except
    (stdout <- subprocess_run ;;
     ret (Some (strip stdout)))
    is_helper_failure
    (ret None).

(** [os.environ.get("GITHUB_TOKEN") or get_token_from_gh_cli()] *)
Definition resolve_token (environ_token : option string) : M (option string) :=
  if token_truthy environ_token then ret environ_token
  else get_token_from_gh_cli.

Variable net : network.
Variable tz : host.

Definition requests_get (u : url) (headers : list (string * string)) : M http_result :=
  fun s =>
    let r := mkRequest u headers in
    let s' := mkIo (sent s ++ [r]) (out s) (helper_runs s) in
    match net (sent s) r with
    | NoResponse => (Raise RequestException, s')
    | resp => (Ret resp, s')
    end.

(** [resp.raise_for_status()] followed by [resp.json()] *)
Definition checked_json (resp : http_result) : M json :=
  match resp with
  | NoResponse => raise RequestException
  | Response status body =>
      if (400 <=? status) && (status <? 600) then raise HTTPError
      else match body with
           | Some j => ret j
           | None => raise JSONDecodeError
           end
  end.

(** ** [get_upstream_info]

    The function is two blocks in a row, each a [try] with its own early
    [return None, None]; they are named here after what they do.  The
    result is the pair [(upstream_ts, upstream_dt)], or [None] for
    [(None, None)]. *)

(** Lines 31-40: the branch to look at, or [None] where the function has
    returned [(None, None)]. *)
Definition determine_branch (owner repo branch_hint : json)
    (headers : list (string * string)) : M (option json) :=
  let branch := branch_hint in
  if negb (truthy branch) then
    try_except
      (resp <- requests_get (RepoUrl owner repo) headers ;;
       body <- checked_json resp ;;
       branch <- lift (get body "default_branch") ;;
       ret (Some branch))
      is_RequestException
      (ret None)
  else ret (Some branch).

(** Lines 42-54 *)
Definition fetch_commit_data (owner repo branch : json)
    (headers : list (string * string)) : M (option (Z * string)) :=
  try_except
    (resp <- requests_get (BranchUrl owner repo branch) headers ;;
     data <- checked_json resp ;;
     c1 <- lift (getitem data "commit") ;;
     c2 <- lift (getitem c1 "commit") ;;
     committer <- lift (getitem c2 "committer") ;;
     date_str <- lift (getitem committer "date") ;;
     ts <- lift (parse_date date_str) ;;
     dt <- lift (from_host (utc_astimezone tz ts)) ;;
     ret (Some (ts, dt)))
    is_RequestException
    (ret None).

Definition get_upstream_info (owner repo branch_hint : json) (token : option string)
  : M (option (Z * string)) :=
  let headers := auth_headers token in
  resolved <- determine_branch owner repo branch_hint headers ;;
  match resolved with
  | None => ret None
  | Some branch => fetch_commit_data owner repo branch headers
  end.

(** ** [check_input] *)

(** What the first [try] block of [check_input] binds. *)
Record parsed_node : Type := mkParsed {
  downstream_ts : Z;
  downstream_dt : string;
  owner : json;
  repo : json;
  branch_hint : json
}.

(** The first [try] block: no effect, and [None] where the function
    returns without a word (a type other than "github", or a [KeyError]). *)
Definition locked_fields (node_data : json) : res (option parsed_node) :=
  rtry
    (locked <-- getitem node_data "locked" ;;
     ty <-- getitem locked "type" ;;
     if ne_github ty then Ret None
     else
       locked <-- getitem node_data "locked" ;;
       last_modified <-- getitem locked "lastModified" ;;
       ts <-- as_int last_modified ;;
       dt <-- from_fromtimestamp tz ts ;;
       locked <-- getitem node_data "locked" ;;
       owner <-- getitem locked "owner" ;;
       locked <-- getitem node_data "locked" ;;
       repo <-- getitem locked "repo" ;;
       original <-- get_default node_data "original" (JObj []) ;;
       branch_hint <-- get original "ref" ;;
       Ret (Some (mkParsed ts dt owner repo branch_hint)))%res
    is_KeyError
    (Ret None).

(** The lines after [# Logic: Should we print?], for a node whose two
    instants are known.  [timedelta(seconds=...)] is kept as its number of
    seconds. *)
Definition report (name : string) (p : parsed_node) (upstream_ts : Z)
    (upstream_dt : string) (only_outdated : bool) : M unit :=
  let is_outdated := downstream_ts p <? upstream_ts in
  if only_outdated && negb is_outdated then ret tt
  else
    print (LChecking name (owner p) (repo p)) ;;;
    (if is_outdated then
       print LUpdateAvailable ;;;
       print (LLocal (downstream_dt p)) ;;;
       print (LUpstream upstream_dt) ;;;
       print (LLag (upstream_ts - downstream_ts p))
     else if downstream_ts p >? upstream_ts then
       print (LLocalAhead (downstream_ts p - upstream_ts))
     else
       print LUpToDate) ;;;
    print LSeparator.

Definition check_input (name : string) (node_data : json) (token : option string)
    (only_outdated : bool) : M unit :=
  parsed <- lift (locked_fields node_data) ;;
  match parsed with
  | None => ret tt
  | Some p =>
      upstream <- get_upstream_info (owner p) (repo p) (branch_hint p) token ;;
      match upstream with
      | None =>
          if negb only_outdated then
            print (LChecking name (owner p) (repo p)) ;;;
            print LCouldNotFetch
          else ret tt
      | Some (upstream_ts, upstream_dt) =>
          report name p upstream_ts upstream_dt only_outdated
      end
  end.

(** ** [main], from [# Auth Token] on

    The lock file is given as loaded; a run that cannot load it ends before
    anything below happens. *)

(** The three invocations the argument parser lets through. *)
Inductive mode : Type :=
| CheckOne (flake_input : string)
| CheckAll                           (* -a *)
| CheckAllOutdated.                  (* -A *)

(** [node_key if isinstance(node_key, str) else name] *)
Definition actual_node_name (name : string) (node_key : json) : string :=
  match node_key with
  | JStr k => k
  | _ => name
  end.

(** The body of the [for] loop, for any per-node action [check]. *)
Definition visit (check : string -> json -> M unit) (lock_data : json)
    (item : string * json) : M unit :=
  let (name, node_key) := item in
  nodes <- lift (getitem lock_data "nodes") ;;
  present <- lift (contains nodes (actual_node_name name node_key)) ;;
  if present then
    nodes <- lift (getitem lock_data "nodes") ;;
    node_data <- lift (getitem nodes (actual_node_name name node_key)) ;;
    check name node_data
  else ret tt.

(** What [root_inputs] is bound to. *)
Definition root_inputs (lock_data : json) : res json :=
  (root_node_name <-- get_default lock_data "root" (JStr "root") ;;
   nodes <-- get_default lock_data "nodes" (JObj []) ;;
   root_node <-- get_by_value nodes root_node_name (JObj []) ;;
   get_default root_node "inputs" (JObj []))%res.

(** What [target_nodes] is bound to: the items of the root node's inputs,
    or of the whole node mapping. *)
Definition target_nodes (lock_data : json) : res (list (string * json)) :=
  (inputs <-- root_inputs lock_data ;;
   if truthy inputs then items inputs
   else (nodes <-- getitem lock_data "nodes" ;; items nodes))%res.

(** The body of [if check_all:], for any per-node action [check]. *)
Definition execution_loop (check : string -> json -> M unit) (lock_data : json)
    (only_outdated : bool) : M unit :=
  targets <- lift (target_nodes lock_data) ;;
  (if match targets with [] => true | _ => false end && negb only_outdated
   then print LNoInputs else ret tt) ;;;
  for_each (visit check lock_data) targets.

Definition main (args : mode) (environ_token : option string) (lock_data : json)
  : M unit :=
  let check_all := match args with CheckOne _ => false | _ => true end in
  let only_outdated := match args with CheckAllOutdated => true | _ => false end in
  token <- resolve_token environ_token ;;
  (if negb (token_truthy token) && check_all then
     if negb only_outdated then print LTip else ret tt
   else ret tt) ;;;
  match args with
  | CheckOne flake_input =>
      nodes <- lift (getitem lock_data "nodes") ;;
      present <- lift (contains nodes flake_input) ;;
      if negb present then
        print (LNotFound flake_input) ;;;
        raise SystemExit
      else
        nodes <- lift (getitem lock_data "nodes") ;;
        node_data <- lift (getitem nodes flake_input) ;;
        check_input flake_input node_data token false
  | _ =>
      execution_loop
        (fun name node_data => check_input name node_data token only_outdated)
        lock_data only_outdated
  end.

(** ** The fallback loop of [checkUp2Date_v2.py]

    The handler of [except KeyError] in the batch branch of the earlier
    version (lines 157-164), for any per-node action: every node but the
    root, whose name [root_node_name] was read before the [try]. *)
Definition v2_fallback (check : string -> json -> M unit) (lock_data : json)
    (root_node_name : json) : M unit :=
  print LNoRootInputs ;;;
  nodes <- lift (getitem lock_data "nodes") ;;
  node_items <- lift (items nodes) ;;
  for_each
    (fun item : string * json =>
       let (name, node) := item in
       if match root_node_name with JStr r => String.eqb name r | _ => false end
       then ret tt
       else check name node)
    node_items.

End Run.

(** ** Results, read off the output

    The script has no record of results; a result is what its output shows
    for a node.  A header line [LChecking] opens the lines of a node, and
    the line after it tells the outcome. *)

Inductive outcome : Type := Stale | Fresh | LocalAhead | Unresolvable.

Record result : Type := mkResult {
  nodeName : string;
  res_owner : json;
  res_repo : json;
  res_outcome : outcome;
  lag : Z;                              (* seconds *)
  localInstant : option string;         (* as shown *)
  upstreamInstant : option string       (* as shown *)
}.

Definition headed (name : string) (o r : json) (after : list line) : list result :=
  match after with
  | LCouldNotFetch :: _ =>
      [mkResult name o r Unresolvable 0 None None]
  | LUpdateAvailable :: LLocal l :: LUpstream u :: LLag d :: _ =>
      [mkResult name o r Stale d (Some l) (Some u)]
  | LLocalAhead d :: _ =>
      [mkResult name o r LocalAhead d None None]
  | LUpToDate :: _ =>
      [mkResult name o r Fresh 0 None None]
  | _ => []
  end.

Fixpoint results_of (ls : list line) : list result :=
  match ls with
  | [] => []
  | LChecking name o r :: tl => headed name o r tl ++ results_of tl
  | _ :: tl => results_of tl
  end.

Definition is_stale (r : result) : bool :=
  match res_outcome r with
  | Stale => true
  | _ => false
  end.

(** ** Example worlds *)

Module Examples.

(** A host that shows every instant the same way. *)
Definition plain_host : host :=
  mkHost (fun _ => Some "local") (fun _ => Some "upstream") (fun _ => YearOutOfRange).

(** A host in another zone: the same instants, shown otherwise. *)
Definition other_host : host :=
  mkHost (fun _ => Some "local, elsewhere") (fun _ => Some "upstream, elsewhere")
         (fun _ => YearOutOfRange).

(** A host one hour ahead of UTC, which cannot show an instant whose local
    time is after the year 9999; [fromtimestamp] looks a day ahead as well. *)
Definition late_host : host :=
  mkHost (fun ts => if ts + 3600 + 86400 <=? 253402300799 then Some "local" else None)
         (fun ts => if ts + 3600 <=? 253402300799 then Some "upstream" else None)
         (fun _ => YearOutOfRange).

Definition commit_body (date : string) : json :=
  JObj [("commit",
         JObj [("commit",
                JObj [("committer", JObj [("date", JStr date)])])])].

(** A network in which every repository has the default branch "main" and
    the tip of every branch was committed at [date]. *)
Definition net_dated (date : string) : network := fun _ r =>
  match req_url r with
  | RepoUrl _ _ => Response 200 (Some (JObj [("default_branch", JStr "main")]))
  | BranchUrl _ _ _ => Response 200 (Some (commit_body date))
  end.

Definition github_node (o r : string) (last_modified : Z) : json :=
  JObj [("locked",
         JObj [("lastModified", JInt last_modified);
               ("owner", JStr o);
               ("repo", JStr r);
               ("type", JStr "github")]);
        ("original",
         JObj [("owner", JStr o); ("repo", JStr r); ("type", JStr "github")])].

(** A node of the supported type without an [owner]. *)
Definition node_without_owner : json :=
  JObj [("locked",
         JObj [("lastModified", JInt 1000);
               ("repo", JStr "r");
               ("type", JStr "github")])].

Definition tarball_node : json :=
  JObj [("locked",
         JObj [("lastModified", JInt 1000);
               ("type", JStr "tarball");
               ("url", JStr "https://example.org/src.tar.gz")])].

(** A server whose repository metadata has no [default_branch] field, and
    on which a branch called "None" exists, last committed to at
    1970-01-01T00:16:41Z; any other branch is unknown (404). *)
Definition net_without_default_branch : network := fun _ q =>
  match req_url q with
  | RepoUrl _ _ => Response 200 (Some (JObj [("name", JStr "r")]))
  | BranchUrl _ _ JNull | BranchUrl _ _ (JStr "None") =>
      Response 200 (Some (commit_body "1970-01-01T00:16:41Z"))
  | BranchUrl _ _ _ => Response 404 (Some (JObj [("message", JStr "Branch not found")]))
  end.

(** A server on which the tip of repository "a" carries a date with an
    offset instead of the literal [Z], and the tip of every other
    repository a date in the fixed format. *)
Definition net_one_malformed : network := fun _ q =>
  match req_url q with
  | RepoUrl _ _ => Response 200 (Some (JObj [("default_branch", JStr "main")]))
  | BranchUrl _ (JStr "a") _ => Response 200 (Some (commit_body "2024-02-29T12:00:00+00:00"))
  | BranchUrl _ _ _ => Response 200 (Some (commit_body "2024-02-29T12:00:00Z"))
  end.

(** A server on which the tip of repository "a" is one second younger than
    1000 and the tip of every other repository is of the instant 1000. *)
Definition net_one_stale : network := fun _ q =>
  match req_url q with
  | RepoUrl _ _ => Response 200 (Some (JObj [("default_branch", JStr "main")]))
  | BranchUrl _ (JStr "a") _ => Response 200 (Some (commit_body "1970-01-01T00:16:41Z"))
  | BranchUrl _ _ _ => Response 200 (Some (commit_body "1970-01-01T00:16:40Z"))
  end.

(** A server on which no branch is known. *)
Definition net_no_branch : network := fun _ q =>
  match req_url q with
  | RepoUrl _ _ => Response 200 (Some (JObj [("default_branch", JStr "main")]))
  | BranchUrl _ _ _ => Response 404 None
  end.

Definition line_feed : string := String (ascii_of_nat 10) EmptyString.

(** What [gh auth token] prints: the token and a line feed. *)
Definition helper_stdout : string :=
  String.append "gho_example" (String (ascii_of_nat 10) EmptyString).

Definition lock_of (root_inputs : list (string * json)) (others : list (string * json))
  : json :=
  JObj [("nodes", JObj (others ++ [("root", JObj [("inputs", JObj root_inputs)])]));
        ("root", JStr "root");
        ("version", JInt 7)].

(** A lock whose root node declares no inputs and is itself locked to a
    GitHub repository, next to one ordinary node. *)
Definition locked_root : json :=
  JObj [("nodes", JObj [("a", github_node "o" "a" 1000);
                        ("root", github_node "o" "self" 1000)]);
        ("root", JStr "root");
        ("version", JInt 7)].

Definition two_inputs : json :=
  lock_of [("a", JStr "a"); ("b", JStr "b")]
          [("a", github_node "o" "a" 1000); ("b", github_node "o" "b" 1000)].

(** A node whose [lastModified] is a string, and one whose [original] is
    the flake reference as text. *)
Definition node_text_timestamp : json :=
  JObj [("locked", JObj [("lastModified", JStr "1000"); ("owner", JStr "o");
                         ("repo", JStr "r"); ("type", JStr "github")])].

Definition node_text_original : json :=
  JObj [("locked", JObj [("lastModified", JInt 1000); ("owner", JStr "o");
                         ("repo", JStr "r"); ("type", JStr "github")]);
        ("original", JStr "github:o/r")].

(** The per-node action of a run that shows every result, without a
    credential, against [net_dated] on [plain_host]. *)
Definition check_plain (name : string) (node_data : json) : M unit :=
  check_input (net_dated "1970-01-01T00:16:41Z") plain_host name node_data None false.

End Examples.

(** * Vocabulary of the properties *)

(** A computation that only talks to the network: it appends requests, all
    with the headers [hdrs], and what it does depends on nothing in the
    state but the requests sent so far. *)
Definition net_only (hdrs : list (string * string)) {A} (c : M A) : Prop :=
  forall hist, exists r reqs,
    Forall (fun q => req_headers q = hdrs) reqs /\
    forall o h, c (mkIo hist o h) = (r, mkIo (hist ++ reqs) o h).

Fixpoint all_space (s : string) : bool :=
  match s with
  | String c tl => is_space c && all_space tl
  | EmptyString => true
  end.

(** The requests of a run all satisfy [P] if those sent before it do. *)
Definition sends (P : request -> Prop) {A} (c : M A) : Prop :=
  forall s, Forall P (sent s) -> Forall P (sent (snd (c s))).

(** No [Authorization] header without a credential that is not empty. *)
Definition no_empty_credential (q : request) : Prop :=
  forall k v, In (k, v) (req_headers q) ->
              exists t, t <> "" /\ k = "Authorization" /\ v = String.append "token " t.

(** [L] is the lines of complete results [rs]: read in front of any other
    lines, it gives [rs] and leaves the reading of the rest alone. *)
Definition blocks (L : list line) (rs : list result) : Prop :=
  forall rest, results_of (L ++ rest) = rs ++ results_of rest.

(** A computation that prints nothing and whose course depends on the
    requests sent so far only. *)
Definition quiet {A} (c : M A) : Prop :=
  forall hist, exists r reqs n,
    forall o h, c (mkIo hist o h) = (r, mkIo (hist ++ reqs) o (n + h)%nat).

(** Two computations that run alike, the second printing of the results of
    the first the stale ones only. *)
Definition filtered_pair (c_all c_stale : M unit) : Prop :=
  forall hist, exists r reqs n L_all L_stale rs,
    blocks L_all rs /\
    blocks L_stale (filter is_stale rs) /\
    (forall o h, c_all (mkIo hist o h) = (r, mkIo (hist ++ reqs) (o ++ L_all) (n + h)%nat)) /\
    (forall o h, c_stale (mkIo hist o h) = (r, mkIo (hist ++ reqs) (o ++ L_stale) (n + h)%nat)).

(** Following the words of the specification: the nodes processed when the
    root declares no inputs are the nodes of the lock except the root. *)
Definition claimed_fallback (lock_data : json) : list (string * json) :=
  match get_default lock_data "root" (JStr "root"), getitem lock_data "nodes" with
  | Ret (JStr root), Ret (JObj nodes) =>
      filter (fun item => negb (String.eqb (fst item) root)) nodes
  | _, _ => []
  end.

Definition on_pair (check : string -> json -> M unit) (item : string * json) : M unit :=
  check (fst item) (snd item).

(** An input of the root and the node it stands for: the value of the
    input is the name of the node. *)
Definition names_node (nodes : list (string * json)) (input target : string * json)
  : Prop :=
  fst input = fst target /\
  exists k, snd input = JStr k /\ dict_find k nodes = Some (snd target).

(** A line without the text the host gave for an instant. *)
Definition erase_dt (l : line) : line :=
  match l with
  | LLocal _ => LLocal ""
  | LUpstream _ => LUpstream ""
  | _ => l
  end.

(** A result without the instants as shown. *)
Definition classification (r : result) : string * json * json * outcome * Z :=
  (nodeName r, res_owner r, res_repo r, res_outcome r, lag r).

(** An answer that [requests] turns into a [RequestException]: no answer
    at all, a status from 400 to 599, or a body that is not JSON. *)
Definition http_failure (r : http_result) : bool :=
  match r with
  | NoResponse => true
  | Response status body =>
      ((400 <=? status) && (status <? 600))
      || match body with None => true | Some _ => false end
  end.

(** Every state a computation ends in is related by [R] to the state it
    started from. *)
Definition steps (R : io -> io -> Prop) {A} (c : M A) : Prop :=
  forall s, R s (snd (c s)).

(** The credential helper was not started between two states. *)
Definition same_helper_runs (s s' : io) : Prop := helper_runs s' = helper_runs s.

(** The lines printed between two states do not include the tip. *)
Definition no_new_tip (s s' : io) : Prop :=
  exists L, out s' = out s ++ L /\ ~ In LTip L.

(** What the output can show of one node: a lag above zero with an
    outcome of stale or ahead and none otherwise, and the two instants with
    an outcome of stale only. *)
Definition well_formed_result (r : result) : Prop :=
  match res_outcome r with
  | Stale => 0 < lag r /\ localInstant r <> None /\ upstreamInstant r <> None
  | LocalAhead => 0 < lag r /\ localInstant r = None /\ upstreamInstant r = None
  | Fresh | Unresolvable => lag r = 0 /\ localInstant r = None /\ upstreamInstant r = None
  end.

(** A computation that prints nothing, sends [k] requests at most, and
    whose course depends on the requests sent so far only. *)
Definition quiet_upto (k : nat) {A} (c : M A) : Prop :=
  forall hist, exists r reqs n,
    (List.length reqs <= k)%nat /\
    forall o h, c (mkIo hist o h) = (r, mkIo (hist ++ reqs) o (n + h)%nat).

(** A computation that sends [nreq] requests at most and prints the lines
    of [nres] complete results at most, each of which satisfies [P]. *)
Definition yields (P : result -> Prop) (nres nreq : nat) (c : M unit) : Prop :=
  forall hist, exists r reqs n L rs,
    blocks L rs /\ Forall P rs /\
    (List.length rs <= nres)%nat /\ (List.length reqs <= nreq)%nat /\
    forall o h, c (mkIo hist o h) = (r, mkIo (hist ++ reqs) (o ++ L) (n + h)%nat).

Fixpoint ends_nonspace (s : string) : bool :=
  match s with
  | EmptyString => false
  | String c EmptyString => negb (is_space c)
  | String _ tl => ends_nonspace tl
  end.

Definition starts_nonspace (s : string) : bool :=
  match s with
  | String c _ => negb (is_space c)
  | EmptyString => false
  end.

(** A server whose answer to a request does not depend on the requests
    sent before it. *)
Definition stable (net : network) : Prop :=
  forall hist hist' q, net hist q = net hist' q.

(** A computation whose result and effects are the same from whatever
    state it starts. *)
Definition isolated {A} (c : M A) : Prop :=
  exists r reqs L n,
    forall s, c s = (r, mkIo (sent s ++ reqs) (out s ++ L) (n + helper_runs s)%nat).

(** The instant that [check_input] asks the host to show for a node: its
    [lastModified], when the node is of the supported type and that field
    is a number. *)
Definition locked_instant (node_data : json) : option Z :=
  match getitem node_data "locked" with
  | Ret locked =>
      match getitem locked "type" with
      | Ret ty =>
          if ne_github ty then None
          else match getitem locked "lastModified" with
               | Ret last_modified =>
                   match as_int last_modified with
                   | Ret ts => Some ts
                   | Raise _ => None
                   end
               | Raise _ => None
               end
      | Raise _ => None
      end
  | Raise _ => None
  end.

(** A host that shows every instant. *)
Definition ideal_host : host :=
  mkHost (fun _ => Some "") (fun _ => Some "") (fun _ => YearOutOfRange).

(** The upstream instant that a run of [check_input] asks the host to show,
    when the run gets that far: the one that the run on a host that shows
    every instant is given by the server. *)
Definition upstream_instant (net : network) (node_data : json) (token : option string)
    (s : io) : option Z :=
  match locked_fields ideal_host node_data with
  | Ret (Some p) =>
      match fst (get_upstream_info net ideal_host (owner p) (repo p) (branch_hint p)
                   token s) with
      | Ret (Some (ts, _)) => Some ts
      | _ => None
      end
  | _ => None
  end.



(** * Properties *)

(** ** The wire format, on examples *)

Example strptime_1001 : strptime_timestamp "1970-01-01T00:16:41Z" = Some 1001.
Proof. reflexivity. Qed.

Example strptime_1000 : strptime_timestamp "1970-01-01T00:16:40Z" = Some 1000.
Proof. reflexivity. Qed.

Example strptime_2024 : strptime_timestamp "2024-02-29T12:00:00Z" = Some 1709208000.
Proof. reflexivity. Qed.

Example strptime_before_epoch : strptime_timestamp "1969-12-31T23:59:59Z" = Some (-1).
Proof. reflexivity. Qed.

Example strptime_no_leap_day : strptime_timestamp "2023-02-29T12:00:00Z" = None.
Proof. reflexivity. Qed.

Example strptime_offset_suffix : strptime_timestamp "2024-02-29T12:00:00+00:00" = None.
Proof. reflexivity. Qed.

(** The library is more lenient than the wire format: single digits and
    lower case letters are accepted. *)
Example strptime_is_lenient :
  strptime_timestamp "2024-1-5T3:4:5Z" = Some 1704423845
  /\ strptime_timestamp "2024-02-29t12:00:00z" = Some 1709208000.
Proof. split; reflexivity. Qed.

Example strptime_fraction : strptime_timestamp "2024-02-29T12:00:00.000Z" = None.
Proof. reflexivity. Qed.

Module ExampleRuns.
Import Examples.

Example stale_by_one_second :
  check_input (net_dated "1970-01-01T00:16:41Z") plain_host "r"
    (github_node "o" "r" 1000) None false io0
  = (Ret tt,
     mkIo [mkRequest (RepoUrl (JStr "o") (JStr "r")) [];
           mkRequest (BranchUrl (JStr "o") (JStr "r") (JStr "main")) []]
          [LChecking "r" (JStr "o") (JStr "r"); LUpdateAvailable;
           LLocal "local"; LUpstream "upstream"; LLag 1; LSeparator]
          0).
Proof. reflexivity. Qed.

Example fresh_at_equal_instants :
  results_of (out (snd (check_input (net_dated "1970-01-01T00:16:40Z") plain_host "r"
                          (github_node "o" "r" 1000) None false io0)))
  = [mkResult "r" (JStr "o") (JStr "r") Fresh 0 None None].
Proof. reflexivity. Qed.

End ExampleRuns.

(** ** The comparison *)

Lemma report_run (name : string) (p : parsed_node) (up : Z) (up_dt : string)
    (only_outdated : bool) (s : io) :
  exists lines,
    report name p up up_dt only_outdated s
    = (Ret tt, mkIo (sent s) (out s ++ lines) (helper_runs s))
    /\ (downstream_ts p < up ->
        lines = [LChecking name (owner p) (repo p); LUpdateAvailable;
                 LLocal (downstream_dt p); LUpstream up_dt;
                 LLag (up - downstream_ts p); LSeparator])
    /\ (downstream_ts p > up ->
        lines = if only_outdated then []
                else [LChecking name (owner p) (repo p);
                      LLocalAhead (downstream_ts p - up); LSeparator])
    /\ (downstream_ts p = up ->
        lines = if only_outdated then []
                else [LChecking name (owner p) (repo p); LUpToDate; LSeparator]).
Proof.
  unfold report.
  destruct (downstream_ts p <? up) eqn:Hlt.
  - apply Z.ltb_lt in Hlt.
    rewrite andb_false_r.
    eexists; split;
      [unfold bind, print; cbn; rewrite <- !app_assoc; reflexivity|].
    repeat split; intros; try lia; reflexivity.
  - apply Z.ltb_ge in Hlt.
    destruct only_outdated; cbn [andb negb].
    + exists []. rewrite app_nil_r. destruct s; repeat split; intros; try lia; reflexivity.
    + destruct (downstream_ts p >? up) eqn:Hgt.
      * apply Z.gtb_lt in Hgt.
        eexists; split;
          [unfold bind, print; cbn; rewrite <- !app_assoc; reflexivity|].
        repeat split; intros; try lia; reflexivity.
      * assert (downstream_ts p = up) by (rewrite Z.gtb_ltb in Hgt; apply Z.ltb_ge in Hgt; lia).
        eexists; split;
          [unfold bind, print; cbn; rewrite <- !app_assoc; reflexivity|].
        repeat split; intros; try lia; reflexivity.
Qed.

(** C1.  A node that reaches the comparison with the locked instant
    [downstream_ts p] and the upstream instant [up] is reported stale with
    a lag of [up - downstream_ts p] seconds when the locked instant is the
    earlier one, ahead with a lag of [downstream_ts p - up] seconds when it
    is the later one, and up to date with no lag only when the two are
    equal; one second is enough for stale. *)
Theorem C1_comparison_outcome (net : network) (tz : host) (name : string)
    (node_data : json) (token : option string) (s s' : io) (p : parsed_node)
    (up : Z) (up_dt : string) :
  locked_fields tz node_data = Ret (Some p) ->
  get_upstream_info net tz (owner p) (repo p) (branch_hint p) token s
  = (Ret (Some (up, up_dt)), s') ->
  exists lines,
    check_input net tz name node_data token false s
    = (Ret tt, mkIo (sent s') (out s' ++ lines) (helper_runs s'))
    /\ (downstream_ts p < up ->
        results_of lines
        = [mkResult name (owner p) (repo p) Stale (up - downstream_ts p)
             (Some (downstream_dt p)) (Some up_dt)])
    /\ (downstream_ts p > up ->
        results_of lines
        = [mkResult name (owner p) (repo p) LocalAhead (downstream_ts p - up)
             None None])
    /\ (downstream_ts p = up ->
        results_of lines
        = [mkResult name (owner p) (repo p) Fresh 0 None None]).
Proof.
  intros Hp Hup.
  destruct (report_run name p up up_dt false s') as (lines & Hrun & Hlt & Hgt & Heq).
  exists lines. split.
  - unfold check_input, bind, lift. rewrite Hp, Hup. exact Hrun.
  - repeat split; intros H.
    + rewrite (Hlt H). reflexivity.
    + rewrite (Hgt H). reflexivity.
    + rewrite (Heq H). reflexivity.
Qed.

Lemma C1_comparison_outcome_witness :
  exists lines,
    check_input (Examples.net_dated "1970-01-01T00:16:41Z") Examples.plain_host "r"
      (Examples.github_node "o" "r" 1000) None false io0
    = (Ret tt,
       mkIo [mkRequest (RepoUrl (JStr "o") (JStr "r")) [];
             mkRequest (BranchUrl (JStr "o") (JStr "r") (JStr "main")) []]
            ([] ++ lines) 0)
    /\ results_of lines
       = [mkResult "r" (JStr "o") (JStr "r") Stale 1 (Some "local") (Some "upstream")].
Proof.
  destruct (C1_comparison_outcome (Examples.net_dated "1970-01-01T00:16:41Z")
              Examples.plain_host "r" (Examples.github_node "o" "r" 1000) None io0
              (mkIo [mkRequest (RepoUrl (JStr "o") (JStr "r")) [];
                     mkRequest (BranchUrl (JStr "o") (JStr "r") (JStr "main")) []]
                    [] 0)
              (mkParsed 1000 "local" (JStr "o") (JStr "r") JNull)
              1001 "upstream" eq_refl eq_refl)
    as (lines & Hrun & Hstale & _).
  exists lines. split.
  - exact Hrun.
  - apply Hstale. cbn. lia.
Defined.

(** ** What a computation may touch *)

Section NetOnly.

Variable hdrs : list (string * string).

Lemma net_only_lift {A} (r : res A) : net_only hdrs (lift r).
Proof.
  intros hist. exists r, []. split; [constructor|].
  intros o h. unfold lift. now rewrite app_nil_r.
Qed.

Lemma net_only_ret {A} (a : A) : net_only hdrs (ret a).
Proof. exact (net_only_lift (Ret a)). Qed.

Lemma net_only_raise {A} (e : exn) : net_only hdrs (@raise A e).
Proof. exact (net_only_lift (Raise e)). Qed.

Lemma net_only_bind {A B} (c : M A) (k : A -> M B) :
  net_only hdrs c -> (forall a, net_only hdrs (k a)) -> net_only hdrs (bind c k).
Proof.
  intros Hc Hk hist.
  destruct (Hc hist) as (r & reqs & Hh & Hrun).
  destruct r as [a|e].
  - destruct (Hk a (hist ++ reqs)) as (r' & reqs' & Hh' & Hrun').
    exists r', (reqs ++ reqs'). split.
    + apply Forall_app; auto.
    + intros o h. unfold bind. rewrite Hrun, Hrun'. now rewrite app_assoc.
  - exists (Raise e), reqs. split; [assumption|].
    intros o h. unfold bind. now rewrite Hrun.
Qed.

Lemma net_only_try {A} (c handler : M A) (handles : exn -> bool) :
  net_only hdrs c -> net_only hdrs handler -> net_only hdrs (try_except c handles handler).
Proof.
  intros Hc Hh hist.
  destruct (Hc hist) as (r & reqs & Hf & Hrun).
  destruct r as [a|e].
  - exists (Ret a), reqs. split; [assumption|].
    intros o h. unfold try_except. now rewrite Hrun.
  - destruct (handles e) eqn:He.
    + destruct (Hh (hist ++ reqs)) as (r' & reqs' & Hf' & Hrun').
      exists r', (reqs ++ reqs'). split.
      * apply Forall_app; auto.
      * intros o h. unfold try_except. rewrite Hrun, He, Hrun'. now rewrite app_assoc.
    + exists (Raise e), reqs. split; [assumption|].
      intros o h. unfold try_except. now rewrite Hrun, He.
Qed.

Lemma net_only_requests_get (net : network) (u : url) :
  net_only hdrs (requests_get net u hdrs).
Proof.
  intros hist.
  exists (match net hist (mkRequest u hdrs) with
          | NoResponse => Raise RequestException
          | resp => Ret resp
          end), [mkRequest u hdrs].
  split; [repeat constructor|].
  intros o h. unfold requests_get. cbn.
  destruct (net hist (mkRequest u hdrs)); reflexivity.
Qed.

Lemma net_only_checked_json (resp : http_result) : net_only hdrs (checked_json resp).
Proof.
  destruct resp as [|status body]; cbn.
  - apply net_only_raise.
  - destruct ((400 <=? status) && (status <? 600)).
    + apply net_only_raise.
    + destruct body; [apply net_only_ret | apply net_only_raise].
Qed.

End NetOnly.

Lemma determine_branch_net_only (net : network) (o r hint : json)
    (hdrs : list (string * string)) :
  net_only hdrs (determine_branch net o r hint hdrs).
Proof.
  unfold determine_branch.
  destruct (negb (truthy hint)); [|apply net_only_ret].
  apply net_only_try; [|apply net_only_ret].
  apply net_only_bind; [apply net_only_requests_get|intros resp].
  apply net_only_bind; [apply net_only_checked_json|intros body].
  apply net_only_bind; [apply net_only_lift|intros b]. apply net_only_ret.
Qed.

Lemma fetch_commit_data_net_only (net : network) (tz : host) (o r branch : json)
    (hdrs : list (string * string)) :
  net_only hdrs (fetch_commit_data net tz o r branch hdrs).
Proof.
  unfold fetch_commit_data.
  apply net_only_try; [|apply net_only_ret].
  apply net_only_bind; [apply net_only_requests_get|intros resp].
  apply net_only_bind; [apply net_only_checked_json|intros data].
  repeat (apply net_only_bind; [apply net_only_lift|intros ?]).
  apply net_only_ret.
Qed.

Lemma get_upstream_info_net_only (net : network) (tz : host) (o r hint : json)
    (token : option string) :
  net_only (auth_headers token) (get_upstream_info net tz o r hint token).
Proof.
  unfold get_upstream_info.
  apply net_only_bind; [apply determine_branch_net_only|].
  intros [branch|]; [apply fetch_commit_data_net_only|apply net_only_ret].
Qed.

(** [fetch_commit_data] sends one request, whatever comes of it. *)
Lemma fetch_commit_data_run (net : network) (tz : host) (o r branch : json)
    (hdrs : list (string * string)) (s : io) :
  exists res,
    fetch_commit_data net tz o r branch hdrs s
    = (res, mkIo (sent s ++ [mkRequest (BranchUrl o r branch) hdrs]) (out s) (helper_runs s)).
Proof.
  unfold fetch_commit_data, try_except, bind, requests_get, checked_json, lift, ret, raise.
  destruct (net (sent s) (mkRequest (BranchUrl o r branch) hdrs)) as [|status body];
    cbn; [eexists; reflexivity|].
  destruct ((400 <=? status) && (status <? 600)); cbn; [eexists; reflexivity|].
  destruct body as [data|]; cbn; [|eexists; reflexivity].
  destruct (getitem data "commit") as [c1|e1]; cbn;
    [|destruct (is_RequestException e1); eexists; reflexivity].
  destruct (getitem c1 "commit") as [c2|e2]; cbn;
    [|destruct (is_RequestException e2); eexists; reflexivity].
  destruct (getitem c2 "committer") as [c3|e3]; cbn;
    [|destruct (is_RequestException e3); eexists; reflexivity].
  destruct (getitem c3 "date") as [d|e4]; cbn;
    [|destruct (is_RequestException e4); eexists; reflexivity].
  destruct (parse_date d) as [ts|e5]; cbn;
    [|destruct (is_RequestException e5); eexists; reflexivity].
  destruct (from_host (utc_astimezone tz ts)) as [dt|e6]; cbn;
    [|destruct (is_RequestException e6); eexists; reflexivity].
  eexists; reflexivity.
Qed.

(** ** Branch resolution *)

(** C5.  With a branch hint that is present and not empty, the only request
    [get_upstream_info] sends is the one for that very branch: the
    repository's metadata is not fetched, and whatever the network would
    have answered about the default branch has no bearing on the result. *)
Theorem C5_branch_hint_precedence (net : network) (tz : host) (o r hint : json)
    (token : option string) (s : io) :
  truthy hint = true ->
  (exists res,
     get_upstream_info net tz o r hint token s
     = (res, mkIo (sent s ++ [mkRequest (BranchUrl o r hint) (auth_headers token)])
               (out s) (helper_runs s)))
  /\ (forall net' : network,
        (forall hist b hd,
           net' hist (mkRequest (BranchUrl o r b) hd)
           = net hist (mkRequest (BranchUrl o r b) hd)) ->
        get_upstream_info net' tz o r hint token s
        = get_upstream_info net tz o r hint token s).
Proof.
  intros Hhint. split.
  - unfold get_upstream_info, determine_branch, bind. rewrite Hhint. cbn [negb ret].
    apply fetch_commit_data_run.
  - intros net' Hagree.
    unfold get_upstream_info, determine_branch, bind. rewrite Hhint. cbn [negb ret].
    unfold fetch_commit_data, try_except, bind, requests_get.
    rewrite Hagree. reflexivity.
Qed.

Lemma C5_branch_hint_precedence_witness :
  (exists res,
     get_upstream_info (Examples.net_dated "1970-01-01T00:16:41Z") Examples.plain_host
       (JStr "NixOS") (JStr "nixpkgs") (JStr "nixos-unstable") None io0
     = (res,
        mkIo ([] ++ [mkRequest (BranchUrl (JStr "NixOS") (JStr "nixpkgs")
                                  (JStr "nixos-unstable")) []])
             [] 0%nat))
  /\ (forall net' : network,
        (forall hist b hd,
           net' hist (mkRequest (BranchUrl (JStr "NixOS") (JStr "nixpkgs") b) hd)
           = Examples.net_dated "1970-01-01T00:16:41Z" hist
               (mkRequest (BranchUrl (JStr "NixOS") (JStr "nixpkgs") b) hd)) ->
        get_upstream_info net' Examples.plain_host
          (JStr "NixOS") (JStr "nixpkgs") (JStr "nixos-unstable") None io0
        = get_upstream_info (Examples.net_dated "1970-01-01T00:16:41Z") Examples.plain_host
            (JStr "NixOS") (JStr "nixpkgs") (JStr "nixos-unstable") None io0).
Proof.
  apply (C5_branch_hint_precedence (Examples.net_dated "1970-01-01T00:16:41Z")
           Examples.plain_host (JStr "NixOS") (JStr "nixpkgs") (JStr "nixos-unstable")
           None io0).
  reflexivity.
Defined.

(** C7.  The metadata of the repository has no [default_branch] field and
    the node has no branch hint: [get_upstream_info] goes on to fetch the
    branch named by Python's [None], and on a server that has a branch of
    that name the node is reported stale instead of unresolvable. *)
Theorem C7_missing_default_branch_is_fetched :
  get_upstream_info Examples.net_without_default_branch Examples.plain_host
    (JStr "o") (JStr "r") JNull None io0
  = (Ret (Some (1001, "upstream")),
     mkIo [mkRequest (RepoUrl (JStr "o") (JStr "r")) [];
           mkRequest (BranchUrl (JStr "o") (JStr "r") JNull) []]
          [] 0%nat)
  /\ results_of
       (out (snd (check_input Examples.net_without_default_branch Examples.plain_host
                    "r" (Examples.github_node "o" "r" 1000) None false io0)))
     = [mkResult "r" (JStr "o") (JStr "r") Stale 1 (Some "local") (Some "upstream")].
Proof. split; reflexivity. Qed.

(** X20.  Whatever the server, and whenever there is no usable hint: a
    metadata answer without the [default_branch] field is followed by the
    request for the branch [None]. *)
Lemma missing_default_branch_request (net : network) (tz : host) (o r hint : json)
    (token : option string) (s : io) (status : Z) (fields : list (string * json)) :
  truthy hint = false ->
  net (sent s) (mkRequest (RepoUrl o r) (auth_headers token))
  = Response status (Some (JObj fields)) ->
  (400 <=? status) && (status <? 600) = false ->
  dict_find "default_branch" fields = None ->
  exists res,
    get_upstream_info net tz o r hint token s
    = (res,
       mkIo (sent s ++ [mkRequest (RepoUrl o r) (auth_headers token);
                        mkRequest (BranchUrl o r JNull) (auth_headers token)])
            (out s) (helper_runs s)).
Proof.
  intros Hhint Hnet Hstatus Hfield.
  unfold get_upstream_info, determine_branch. rewrite Hhint. cbn [negb].
  unfold bind at 1, try_except, bind at 1, requests_get.
  rewrite Hnet. unfold bind at 1. cbn [checked_json]. rewrite Hstatus.
  unfold ret at 1, bind at 1, lift, get, get_default. rewrite Hfield.
  unfold ret at 1.
  match goal with
  | |- context [fetch_commit_data net tz o r JNull ?h ?st] =>
      destruct (fetch_commit_data_run net tz o r JNull h st) as (res & Hrun)
  end.
  exists res. rewrite Hrun. cbn [sent out helper_runs].
  now rewrite <- app_assoc.
Qed.

(** ** Nodes that are passed over *)

Lemma ne_github_true (ty : json) : ty <> JStr "github" -> ne_github ty = true.
Proof.
  intros Hne. destruct ty as [| | |t| |]; try reflexivity.
  cbn. destruct (String.eqb_spec t "github") as [->|]; [contradiction|reflexivity].
Qed.

Lemma check_input_skips (net : network) (tz : host) (name : string) (node_data : json)
    (token : option string) (only_outdated : bool) (s : io) :
  locked_fields tz node_data = Ret None ->
  check_input net tz name node_data token only_outdated s = (Ret tt, s).
Proof. intros H. unfold check_input, bind, lift. now rewrite H. Qed.

Lemma visit_present (check : string -> json -> M unit) (lock_data nodes node_data : json)
    (name : string) (node_key : json) (s : io) :
  getitem lock_data "nodes" = Ret nodes ->
  getitem nodes (actual_node_name name node_key) = Ret node_data ->
  visit check lock_data (name, node_key) s = check name node_data s.
Proof.
  intros Hnodes Hnode. unfold visit, bind, lift. rewrite Hnodes.
  destruct nodes as [| | | | |l]; try discriminate. cbn in Hnode |- *.
  destruct (dict_find (actual_node_name name node_key) l); [|discriminate].
  now inversion Hnode.
Qed.

Lemma for_each_app {A} (body : A -> M unit) (l1 l2 : list A) (s : io) :
  for_each body (l1 ++ l2) s = (for_each body l1 ;;; for_each body l2) s.
Proof.
  revert s. induction l1 as [|x l1 IH]; intros s; cbn.
  - reflexivity.
  - unfold bind. destruct (body x s) as [[[]|e] s1]; [|reflexivity].
    rewrite IH. reflexivity.
Qed.

(** C9.  A node whose [locked.type] is anything but "github" is passed
    over: [check_input] prints nothing, sends nothing and raises nothing,
    in either reporting mode, and a batch that meets the node runs exactly
    as the batch without it. *)
Theorem C9_other_source_types_skipped (net : network) (tz : host) (name : string)
    (node_data locked ty : json) (token : option string) (only_outdated : bool) :
  getitem node_data "locked" = Ret locked ->
  getitem locked "type" = Ret ty ->
  ty <> JStr "github" ->
  (forall s, check_input net tz name node_data token only_outdated s = (Ret tt, s))
  /\ (forall lock_data nodes node_key before after s,
        getitem lock_data "nodes" = Ret nodes ->
        getitem nodes (actual_node_name name node_key) = Ret node_data ->
        for_each
          (visit (fun n d => check_input net tz n d token only_outdated) lock_data)
          (before ++ (name, node_key) :: after) s
        = for_each
            (visit (fun n d => check_input net tz n d token only_outdated) lock_data)
            (before ++ after) s).
Proof.
  intros Hlocked Hty Hne.
  assert (Hskip : forall s, check_input net tz name node_data token only_outdated s
                            = (Ret tt, s)).
  { intros s. apply check_input_skips.
    unfold locked_fields, rbind, rtry. rewrite Hlocked, Hty.
    now rewrite (ne_github_true ty Hne). }
  split; [exact Hskip|].
  intros lock_data nodes node_key before after s Hnodes Hnode.
  rewrite !for_each_app. unfold bind.
  destruct (for_each _ before s) as [[[]|e] s1]; [|reflexivity].
  cbn [for_each]. unfold bind.
  rewrite (visit_present _ lock_data nodes node_data name node_key s1 Hnodes Hnode).
  now rewrite Hskip.
Qed.

Lemma C9_other_source_types_skipped_witness :
  (forall s,
     check_input (Examples.net_dated "1970-01-01T00:16:41Z") Examples.plain_host
       "src" Examples.tarball_node None false s = (Ret tt, s))
  /\ (forall lock_data nodes node_key before after s,
        getitem lock_data "nodes" = Ret nodes ->
        getitem nodes (actual_node_name "src" node_key) = Ret Examples.tarball_node ->
        for_each
          (visit (fun n d => check_input (Examples.net_dated "1970-01-01T00:16:41Z")
                               Examples.plain_host n d None false) lock_data)
          (before ++ ("src", node_key) :: after) s
        = for_each
            (visit (fun n d => check_input (Examples.net_dated "1970-01-01T00:16:41Z")
                                 Examples.plain_host n d None false) lock_data)
            (before ++ after) s).
Proof.
  apply (C9_other_source_types_skipped (Examples.net_dated "1970-01-01T00:16:41Z")
           Examples.plain_host "src" Examples.tarball_node
           (JObj [("lastModified", JInt 1000); ("type", JStr "tarball");
                  ("url", JStr "https://example.org/src.tar.gz")])
           (JStr "tarball") None false).
  - reflexivity.
  - reflexivity.
  - discriminate.
Defined.

(** C3 (as stated, refuted).  The node is of the supported type and has no
    [owner]; the output of [check_input] holds no result for it at all, so
    none whose outcome is unresolvable. *)
Lemma C3_counterexample :
  (exists l, getitem Examples.node_without_owner "locked" = Ret (JObj l)
             /\ dict_find "type" l = Some (JStr "github")
             /\ dict_find "owner" l = None)
  /\ ~ (exists r,
          In r (results_of
                  (out (snd (check_input (Examples.net_dated "1970-01-01T00:16:41Z")
                               Examples.plain_host "x" Examples.node_without_owner
                               None false io0)))) /\
          res_outcome r = Unresolvable).
Proof.
  split.
  - eexists. repeat split; reflexivity.
  - intros (r & Hin & _). exact Hin.
Qed.

(** C3 (amended).  A node of the supported type whose [owner] or [repo] is
    missing, and whose [lastModified], if it has one, is an integer the
    host can show, is passed over like a node of another type:
    [check_input] prints nothing, sends nothing and raises nothing. *)
Theorem C3_missing_owner_or_repo_skipped (net : network) (tz : host) (name : string)
    (node_data : json) (l : list (string * json)) (token : option string)
    (only_outdated : bool) :
  getitem node_data "locked" = Ret (JObj l) ->
  dict_find "type" l = Some (JStr "github") ->
  (forall lm, dict_find "lastModified" l = Some lm ->
              exists ts dt, as_int lm = Ret ts /\ fromtimestamp_astimezone tz ts = Some dt) ->
  dict_find "owner" l = None \/ dict_find "repo" l = None ->
  forall s, check_input net tz name node_data token only_outdated s = (Ret tt, s).
Proof.
  intros Hlocked Hty Hlm Hmissing s.
  apply check_input_skips.
  unfold locked_fields, rbind, rtry. rewrite Hlocked. cbn [getitem].
  rewrite Hty. cbn [ne_github String.eqb Ascii.eqb Bool.eqb negb].
  destruct (dict_find "lastModified" l) as [lm|] eqn:Elm; [|reflexivity].
  destruct (Hlm lm eq_refl) as (ts & dt & Hts & Hdt).
  rewrite Hts. unfold from_fromtimestamp. rewrite Hdt.
  destruct (dict_find "owner" l) as [o|]; [|reflexivity].
  destruct Hmissing as [Ho|Hr]; [discriminate|].
  rewrite Hr. reflexivity.
Qed.

Lemma C3_missing_owner_or_repo_skipped_witness :
  check_input (Examples.net_dated "1970-01-01T00:16:41Z") Examples.plain_host "x"
    Examples.node_without_owner None false io0 = (Ret tt, io0).
Proof.
  refine (C3_missing_owner_or_repo_skipped (Examples.net_dated "1970-01-01T00:16:41Z")
           Examples.plain_host "x" Examples.node_without_owner
           [("lastModified", JInt 1000); ("repo", JStr "r"); ("type", JStr "github")]
           None false _ _ _ _ io0).
  - reflexivity.
  - reflexivity.
  - intros lm Hlm. cbn in Hlm. inversion Hlm; subst lm.
    exists 1000, "local". split; reflexivity.
  - left. reflexivity.
Defined.

(** ** Failures while fetching *)

(** A failure that [requests] reports is kept to the node: here every
    branch is unknown to the server, both nodes are reported unresolvable
    and the run ends normally. *)
Example request_failures_do_not_stop_the_batch :
  main HelperMissing Examples.net_no_branch Examples.plain_host CheckAll None
    Examples.two_inputs io0
  = (Ret tt,
     mkIo [mkRequest (RepoUrl (JStr "o") (JStr "a")) [];
           mkRequest (BranchUrl (JStr "o") (JStr "a") (JStr "main")) [];
           mkRequest (RepoUrl (JStr "o") (JStr "b")) [];
           mkRequest (BranchUrl (JStr "o") (JStr "b") (JStr "main")) []]
          [LTip;
           LChecking "a" (JStr "o") (JStr "a"); LCouldNotFetch;
           LChecking "b" (JStr "o") (JStr "b"); LCouldNotFetch]
          1%nat).
Proof. reflexivity. Qed.

(** C2.  The tip of the first input carries the date
    "2024-02-29T12:00:00+00:00", which is not in the fixed format:
    [strptime] raises [ValueError], nothing catches it, and the run ends
    there.  Nothing is reported for the first input, and the second one,
    whose upstream is in order, is never looked at. *)
Theorem C2_malformed_timestamp_aborts_batch :
  main HelperMissing Examples.net_one_malformed Examples.plain_host CheckAll None
    Examples.two_inputs io0
  = (Raise ValueError,
     mkIo [mkRequest (RepoUrl (JStr "o") (JStr "a")) [];
           mkRequest (BranchUrl (JStr "o") (JStr "a") (JStr "main")) []]
          [LTip]
          1%nat).
Proof. reflexivity. Qed.

(** Whatever the server: a date that [strptime] refuses leaves
    [fetch_commit_data] by a [ValueError], past its handler. *)
Lemma malformed_date_raises (net : network) (tz : host) (o r branch : json)
    (hdrs : list (string * string)) (s : io) (status : Z) (date : string) :
  net (sent s) (mkRequest (BranchUrl o r branch) hdrs)
  = Response status (Some (Examples.commit_body date)) ->
  (400 <=? status) && (status <? 600) = false ->
  strptime_timestamp date = None ->
  fst (fetch_commit_data net tz o r branch hdrs s) = Raise ValueError.
Proof.
  intros Hnet Hstatus Hdate.
  unfold fetch_commit_data, try_except, bind, requests_get.
  rewrite Hnet. cbn [checked_json]. rewrite Hstatus.
  cbn. rewrite Hdate. reflexivity.
Qed.

(** ** Credentials *)

Lemma strip_all_space (s : string) : all_space s = true -> strip s = "".
Proof.
  unfold strip. induction s as [|c tl IH]; cbn; intros H.
  - reflexivity.
  - apply andb_prop in H. destruct H as [Hc Htl]. rewrite Hc. auto.
Qed.

Lemma auth_headers_credential (token : option string) (k v : string) :
  In (k, v) (auth_headers token) ->
  exists t, token = Some t /\ t <> "" /\ k = "Authorization" /\ v = String.append "token " t.
Proof.
  unfold auth_headers. destruct token as [t|]; [|intros []].
  cbn. destruct (String.eqb_spec t "") as [->|Hne]; cbn; [intros []|].
  intros [H|[]]. inversion H; subst. exists t. auto.
Qed.

Section Sends.

Variable P : request -> Prop.

Lemma sends_lift {A} (r : res A) : sends P (lift r).
Proof. intros s H. exact H. Qed.

Lemma sends_print (l : line) : sends P (print l).
Proof. intros s H. exact H. Qed.

Lemma sends_bind {A B} (c : M A) (k : A -> M B) :
  sends P c -> (forall a, sends P (k a)) -> sends P (bind c k).
Proof.
  intros Hc Hk s H. unfold bind.
  specialize (Hc s H). destruct (c s) as [[a|e] s1]; cbn in Hc.
  - apply Hk, Hc.
  - exact Hc.
Qed.

Lemma sends_try {A} (c handler : M A) (handles : exn -> bool) :
  sends P c -> sends P handler -> sends P (try_except c handles handler).
Proof.
  intros Hc Hh s H. unfold try_except.
  specialize (Hc s H). destruct (c s) as [[a|e] s1]; cbn in Hc.
  - exact Hc.
  - destruct (handles e); [apply Hh, Hc|exact Hc].
Qed.

Lemma sends_for_each {A} (body : A -> M unit) (l : list A) :
  (forall x, sends P (body x)) -> sends P (for_each body l).
Proof.
  intros Hb. induction l as [|x l IH]; cbn.
  - exact (sends_lift (Ret tt)).
  - apply sends_bind; [apply Hb|intros _; exact IH].
Qed.

Lemma sends_net_only {A} (hdrs : list (string * string)) (c : M A) :
  (forall q, req_headers q = hdrs -> P q) -> net_only hdrs c -> sends P c.
Proof.
  intros HP Hc [hist o h] H. cbn in H.
  destruct (Hc hist) as (r & reqs & Hh & Hrun). rewrite Hrun. cbn.
  apply Forall_app. split; [exact H|].
  eapply Forall_impl; [|exact Hh]. exact HP.
Qed.

End Sends.

Lemma check_input_sends (net : network) (tz : host) (name : string) (node_data : json)
    (token : option string) (only_outdated : bool) :
  sends no_empty_credential (check_input net tz name node_data token only_outdated).
Proof.
  unfold check_input.
  apply sends_bind; [apply sends_lift|]. intros [p|]; [|apply sends_lift].
  apply sends_bind.
  - apply (sends_net_only _ (auth_headers token)); [|apply get_upstream_info_net_only].
    intros q Hq k v Hin. rewrite Hq in Hin.
    destruct (auth_headers_credential token k v Hin) as (t & _ & Hne & Hk & Hv).
    exists t. auto.
  - intros [[up up_dt]|].
    + unfold report.
      destruct (only_outdated && negb (downstream_ts p <? up)); [apply sends_lift|].
      apply sends_bind; [apply sends_print|intros _].
      apply sends_bind; [|intros _; apply sends_print].
      destruct (downstream_ts p <? up).
      * repeat (apply sends_bind; [apply sends_print|intros _]). apply sends_print.
      * destruct (downstream_ts p >? up); apply sends_print.
    + destruct (negb only_outdated); [|apply sends_lift].
      apply sends_bind; [apply sends_print|intros _; apply sends_print].
Qed.

Lemma subprocess_run_sends (gh : helper) : sends no_empty_credential (subprocess_run gh).
Proof.
  intros s H. unfold subprocess_run.
  destruct gh as [| |code stdout|]; cbn; try exact H.
  destruct (code =? 0); exact H.
Qed.

Lemma main_sends (gh : helper) (net : network) (tz : host) (args : mode)
    (environ_token : option string) (lock_data : json) :
  sends no_empty_credential (main gh net tz args environ_token lock_data).
Proof.
  unfold main.
  apply sends_bind.
  { unfold resolve_token. destruct (token_truthy environ_token); [apply sends_lift|].
    unfold get_token_from_gh_cli.
    apply sends_try; [|apply sends_lift].
    apply sends_bind; [apply subprocess_run_sends|intros ?; apply sends_lift]. }
  intros token. apply sends_bind.
  { destruct (negb (token_truthy token) && _); [|apply sends_lift].
    destruct (negb _); [apply sends_print|apply sends_lift]. }
  intros _.
  assert (Hloop : forall oo,
             sends no_empty_credential
               (execution_loop (fun name nd => check_input net tz name nd token oo)
                  lock_data oo)).
  { intros oo. unfold execution_loop.
    apply sends_bind; [apply sends_lift|intros targets].
    apply sends_bind.
    { destruct (_ && _); [apply sends_print|apply sends_lift]. }
    intros _. apply sends_for_each. intros [name key]. unfold visit.
    apply sends_bind; [apply sends_lift|intros nodes].
    apply sends_bind; [apply sends_lift|intros [|]]; [|apply sends_lift].
    apply sends_bind; [apply sends_lift|intros nodes'].
    apply sends_bind; [apply sends_lift|intros nd].
    apply check_input_sends. }
  destruct args as [flake_input| |]; [|apply Hloop|apply Hloop].
  apply sends_bind; [apply sends_lift|intros nodes].
  apply sends_bind; [apply sends_lift|intros present].
  destruct (negb present).
  - apply sends_bind; [apply sends_print|intros _; apply sends_lift].
  - apply sends_bind; [apply sends_lift|intros nodes'].
    apply sends_bind; [apply sends_lift|intros nd].
    apply check_input_sends.
Qed.

(** C6 (as stated, refuted).  The helper ends with status zero and prints
    white space only: the credential is the empty string, not [None]. *)
Lemma C6_counterexample :
  all_space "  " = true
  /\ fst (resolve_token (HelperExited 0 "  ") None io0) = Ret (Some "")
  /\ fst (resolve_token (HelperExited 0 "  ") None io0) <> Ret None.
Proof. repeat split. discriminate. Qed.

(** C6 (amended).  A token of the environment that is not empty is the
    credential, and the helper is not started; otherwise the helper is
    started once and the credential is what it gives: [None], without an
    exception, when the helper is missing or ends with a status other than
    zero, and the empty string when it prints white space only.  Neither
    [None] nor the empty string makes a header, and from start to end of a
    run no request carries an [Authorization] header with an empty
    credential. *)
Theorem C6_credential_resolution :
  (forall gh t s, t <> "" -> resolve_token gh (Some t) s = (Ret (Some t), s))
  /\ (forall gh env s,
        token_truthy env = false ->
        resolve_token gh env s = get_token_from_gh_cli gh s
        /\ helper_runs (snd (resolve_token gh env s)) = S (helper_runs s))
  /\ (forall gh env s,
        token_truthy env = false ->
        gh = HelperMissing
        \/ (exists code stdout, gh = HelperExited code stdout /\ code <> 0) ->
        fst (resolve_token gh env s) = Ret None)
  /\ (forall env s stdout,
        token_truthy env = false ->
        all_space stdout = true ->
        fst (resolve_token (HelperExited 0 stdout) env s) = Ret (Some ""))
  /\ auth_headers None = [] /\ auth_headers (Some "") = []
  /\ (forall gh net tz args env lock_data q k v,
        In q (sent (snd (main gh net tz args env lock_data io0))) ->
        In (k, v) (req_headers q) ->
        exists t, t <> "" /\ k = "Authorization" /\ v = String.append "token " t).
Proof.
  split; [|split; [|split; [|split; [|split; [|split]]]]].
  - intros gh t s Hne. unfold resolve_token. cbn.
    destruct (String.eqb_spec t "") as [->|_]; [contradiction|reflexivity].
  - intros gh env s H. split.
    + unfold resolve_token. rewrite H. reflexivity.
    + unfold resolve_token. rewrite H.
      unfold get_token_from_gh_cli, try_except, bind, subprocess_run.
      destruct gh as [| |code stdout|]; cbn; try reflexivity.
      destruct (code =? 0); reflexivity.
  - intros gh env s Henv Hgh. unfold resolve_token. rewrite Henv.
    unfold get_token_from_gh_cli, try_except, bind, subprocess_run.
    destruct Hgh as [->|(code & stdout & -> & Hcode)]; cbn; [reflexivity|].
    destruct (Z.eqb_spec code 0) as [->|_]; [contradiction|reflexivity].
  - intros env s stdout Henv Hsp. unfold resolve_token. rewrite Henv.
    unfold get_token_from_gh_cli, try_except, bind, subprocess_run. cbn.
    now rewrite (strip_all_space stdout Hsp).
  - reflexivity.
  - reflexivity.
  - intros gh net tz args env lock_data q k v Hq Hkv.
    pose proof (main_sends gh net tz args env lock_data io0 (Forall_nil _)) as Hall.
    rewrite Forall_forall in Hall. exact (Hall q Hq k v Hkv).
Qed.

(** Output that is not text is neither of the failures the function
    expects: whatever the status, the run ends with [UnicodeDecodeError]. *)
Example undecodable_helper_output_is_an_error :
  fst (resolve_token HelperGarbled None io0) = Raise UnicodeDecodeError.
Proof. reflexivity. Qed.

(** ** The stale-only filter *)

Lemma blocks_nil : blocks [] [].
Proof. intros rest. reflexivity. Qed.

Lemma blocks_app (L1 L2 : list line) (rs1 rs2 : list result) :
  blocks L1 rs1 -> blocks L2 rs2 -> blocks (L1 ++ L2) (rs1 ++ rs2).
Proof.
  intros H1 H2 rest. rewrite <- !app_assoc. rewrite H1, H2. reflexivity.
Qed.

Lemma quiet_lift {A} (r : res A) : quiet (lift r).
Proof.
  intros hist. exists r, [], 0%nat. intros o h. unfold lift. now rewrite app_nil_r.
Qed.

Lemma quiet_net_only {A} (hdrs : list (string * string)) (c : M A) :
  net_only hdrs c -> quiet c.
Proof.
  intros Hc hist. destruct (Hc hist) as (r & reqs & _ & Hrun).
  exists r, reqs, 0%nat. exact Hrun.
Qed.

Lemma quiet_resolve_token (gh : helper) (env : option string) : quiet (resolve_token gh env).
Proof.
  intros hist. unfold resolve_token.
  destruct (token_truthy env).
  - exists (Ret env), [], 0%nat. intros o h. unfold ret. now rewrite app_nil_r.
  - unfold get_token_from_gh_cli, try_except, bind, subprocess_run.
    destruct gh as [| |code stdout|]; cbn.
    + exists (Ret None), [], 1%nat. intros o h. now rewrite app_nil_r.
    + exists (Raise PermissionError), [], 1%nat. intros o h. now rewrite app_nil_r.
    + destruct (code =? 0); cbn.
      * exists (Ret (Some (strip stdout))), [], 1%nat. intros o h. now rewrite app_nil_r.
      * exists (Ret None), [], 1%nat. intros o h. now rewrite app_nil_r.
    + exists (Raise UnicodeDecodeError), [], 1%nat. intros o h. now rewrite app_nil_r.
Qed.

Lemma filtered_pair_lines (L_all L_stale : list line) (rs : list result) :
  blocks L_all rs -> blocks L_stale (filter is_stale rs) ->
  forall c_all c_stale : M unit,
    (forall s, c_all s = (Ret tt, mkIo (sent s) (out s ++ L_all) (helper_runs s))) ->
    (forall s, c_stale s = (Ret tt, mkIo (sent s) (out s ++ L_stale) (helper_runs s))) ->
    filtered_pair c_all c_stale.
Proof.
  intros Ha Hs c_all c_stale Hca Hcs hist.
  exists (Ret tt), [], 0%nat, L_all, L_stale, rs.
  repeat split; try assumption; intros o h.
  - rewrite Hca. cbn. now rewrite app_nil_r.
  - rewrite Hcs. cbn. now rewrite app_nil_r.
Qed.

Lemma filtered_pair_skip : filtered_pair (ret tt) (ret tt).
Proof.
  apply (filtered_pair_lines [] [] []); try apply blocks_nil;
    intros [hist o h]; unfold ret; cbn; now rewrite app_nil_r.
Qed.

(** A line that belongs to no result, printed when every result is shown. *)
Lemma filtered_pair_notice (l : line) :
  (forall n o r, l <> LChecking n o r) -> filtered_pair (print l) (ret tt).
Proof.
  intros Hl.
  apply (filtered_pair_lines [l] [] []); try apply blocks_nil.
  - intros rest. destruct l; try reflexivity. now destruct (Hl name owner0 repo0).
  - intros s. reflexivity.
  - intros [hist o h]. unfold ret. cbn. now rewrite app_nil_r.
Qed.

Lemma filtered_pair_raise (e : exn) : filtered_pair (raise e) (raise e).
Proof.
  intros hist. exists (Raise e), [], 0%nat, [], [], [].
  repeat split; try apply blocks_nil; intros o h; unfold raise; now rewrite !app_nil_r.
Qed.

Lemma filtered_pair_bind {A} (c : M A) (k_all k_stale : A -> M unit) :
  quiet c -> (forall a, filtered_pair (k_all a) (k_stale a)) ->
  filtered_pair (bind c k_all) (bind c k_stale).
Proof.
  intros Hc Hk hist.
  destruct (Hc hist) as (r & reqs & n & Hrun).
  destruct r as [a|e].
  - destruct (Hk a (hist ++ reqs)) as (r' & reqs' & n' & La & Ls & rs & Ha & Hs & Hra & Hrs).
    exists r', (reqs ++ reqs'), (n' + n)%nat, La, Ls, rs.
    repeat split; try assumption; intros o h; unfold bind; rewrite Hrun.
    + rewrite Hra. now rewrite app_assoc, Nat.add_assoc.
    + rewrite Hrs. now rewrite app_assoc, Nat.add_assoc.
  - exists (Raise e), reqs, n, [], [], [].
    repeat split; try apply blocks_nil; intros o h; unfold bind; rewrite Hrun;
      now rewrite app_nil_r.
Qed.

Lemma filtered_pair_seq (c_all c_stale k_all k_stale : M unit) :
  filtered_pair c_all c_stale -> filtered_pair k_all k_stale ->
  filtered_pair (c_all ;;; k_all) (c_stale ;;; k_stale).
Proof.
  intros Hc Hk hist.
  destruct (Hc hist) as (r & reqs & n & La & Ls & rs & Ha & Hs & Hra & Hrs).
  destruct r as [[]|e].
  - destruct (Hk (hist ++ reqs)) as (r' & reqs' & n' & La' & Ls' & rs' & Ha' & Hs' & Hra' & Hrs').
    exists r', (reqs ++ reqs'), (n' + n)%nat, (La ++ La'), (Ls ++ Ls'), (rs ++ rs').
    repeat split.
    + now apply blocks_app.
    + rewrite filter_app. now apply blocks_app.
    + intros o h. unfold bind. rewrite Hra, Hra'. now rewrite !app_assoc, Nat.add_assoc.
    + intros o h. unfold bind. rewrite Hrs, Hrs'. now rewrite !app_assoc, Nat.add_assoc.
  - exists (Raise e), reqs, n, La, Ls, rs.
    repeat split; try assumption; intros o h; unfold bind.
    + now rewrite Hra.
    + now rewrite Hrs.
Qed.

Lemma filtered_pair_for_each {A} (body_all body_stale : A -> M unit) (l : list A) :
  (forall x, filtered_pair (body_all x) (body_stale x)) ->
  filtered_pair (for_each body_all l) (for_each body_stale l).
Proof.
  intros Hb. induction l as [|x l IH]; cbn.
  - apply filtered_pair_skip.
  - apply filtered_pair_seq; [apply Hb|exact IH].
Qed.

(** What [report] prints does not depend on the state it starts from. *)
Lemma report_lines_at (name : string) (p : parsed_node) (up : Z) (up_dt : string)
    (only_outdated : bool) (L : list line) :
  report name p up up_dt only_outdated io0 = (Ret tt, mkIo [] L 0) ->
  forall s, report name p up up_dt only_outdated s
            = (Ret tt, mkIo (sent s) (out s ++ L) (helper_runs s)).
Proof.
  intros H0 s.
  destruct (report_run name p up up_dt only_outdated s) as (L1 & H1 & Hlt1 & Hgt1 & Heq1).
  destruct (report_run name p up up_dt only_outdated io0) as (L0 & H0' & Hlt0 & Hgt0 & Heq0).
  rewrite H0 in H0'. cbn in H0'. inversion H0' as [HL]. clear H0'.
  rewrite H1. do 3 f_equal.
  destruct (Z.lt_trichotomy (downstream_ts p) up) as [H|[H|H]].
  - now rewrite (Hlt1 H), <- (Hlt0 H).
  - now rewrite (Heq1 H), <- (Heq0 H).
  - apply Z.lt_gt in H. now rewrite (Hgt1 H), <- (Hgt0 H).
Qed.

Lemma filtered_pair_report (name : string) (p : parsed_node) (up : Z) (up_dt : string) :
  filtered_pair (report name p up up_dt false) (report name p up up_dt true).
Proof.
  destruct (report_run name p up up_dt false io0) as (La & Hra & Hlt & Hgt & Heq).
  destruct (report_run name p up up_dt true io0) as (Ls & Hrs & Hlt' & Hgt' & Heq').
  cbn in Hra, Hrs.
  pose proof (report_lines_at name p up up_dt false La Hra) as Hall.
  pose proof (report_lines_at name p up up_dt true Ls Hrs) as Hstale.
  destruct (Z.lt_trichotomy (downstream_ts p) up) as [H|[H|H]].
  - apply (filtered_pair_lines La Ls
             [mkResult name (owner p) (repo p) Stale (up - downstream_ts p)
                (Some (downstream_dt p)) (Some up_dt)]); try assumption.
    + rewrite (Hlt H). intros rest. reflexivity.
    + rewrite (Hlt' H). intros rest. reflexivity.
  - apply (filtered_pair_lines La Ls
             [mkResult name (owner p) (repo p) Fresh 0 None None]); try assumption.
    + rewrite (Heq H). intros rest. reflexivity.
    + rewrite (Heq' H). intros rest. reflexivity.
  - apply Z.lt_gt in H.
    apply (filtered_pair_lines La Ls
             [mkResult name (owner p) (repo p) LocalAhead (downstream_ts p - up) None None]);
      try assumption.
    + rewrite (Hgt H). intros rest. reflexivity.
    + rewrite (Hgt' H). intros rest. reflexivity.
Qed.

Lemma filtered_pair_check_input (net : network) (tz : host) (name : string)
    (node_data : json) (token : option string) :
  filtered_pair (check_input net tz name node_data token false)
                (check_input net tz name node_data token true).
Proof.
  unfold check_input.
  apply filtered_pair_bind; [apply quiet_lift|].
  intros [p|]; [|apply filtered_pair_skip].
  apply filtered_pair_bind.
  { apply (quiet_net_only (auth_headers token)), get_upstream_info_net_only. }
  intros [[up up_dt]|]; [apply filtered_pair_report|].
  cbn [negb].
  apply (filtered_pair_lines
           [LChecking name (owner p) (repo p); LCouldNotFetch] []
           [mkResult name (owner p) (repo p) Unresolvable 0 None None]).
  - intros rest. reflexivity.
  - intros rest. reflexivity.
  - intros s. unfold bind, print. cbn. now rewrite <- app_assoc.
  - intros [hist o h]. unfold ret. cbn. now rewrite app_nil_r.
Qed.

Lemma filtered_pair_main (gh : helper) (net : network) (tz : host)
    (environ_token : option string) (lock_data : json) :
  filtered_pair (main gh net tz CheckAll environ_token lock_data)
                (main gh net tz CheckAllOutdated environ_token lock_data).
Proof.
  unfold main.
  apply filtered_pair_bind; [apply quiet_resolve_token|]. intros token.
  apply filtered_pair_seq.
  - rewrite andb_true_r. destruct (negb (token_truthy token)); cbn [negb].
    + apply filtered_pair_notice. discriminate.
    + apply filtered_pair_skip.
  - unfold execution_loop.
    apply filtered_pair_bind; [apply quiet_lift|]. intros targets.
    apply filtered_pair_seq.
    + rewrite andb_true_r, andb_false_r. destruct targets.
      * apply filtered_pair_notice. discriminate.
      * apply filtered_pair_skip.
    + apply filtered_pair_for_each. intros [name key]. unfold visit.
      apply filtered_pair_bind; [apply quiet_lift|]. intros nodes.
      apply filtered_pair_bind; [apply quiet_lift|]. intros [|]; [|apply filtered_pair_skip].
      apply filtered_pair_bind; [apply quiet_lift|]. intros nodes'.
      apply filtered_pair_bind; [apply quiet_lift|]. intros nd.
      apply filtered_pair_check_input.
Qed.

(** C4.  For every batch, the results shown by the stale-only run are the
    stale results of the run that shows everything, in the same order; and
    the two runs send the same requests in the same order and end the same
    way, so that the filter bears on the output alone. *)
Theorem C4_stale_only_is_a_filter (gh : helper) (net : network) (tz : host)
    (environ_token : option string) (lock_data : json) :
  results_of (out (snd (main gh net tz CheckAllOutdated environ_token lock_data io0)))
  = filter is_stale
      (results_of (out (snd (main gh net tz CheckAll environ_token lock_data io0))))
  /\ sent (snd (main gh net tz CheckAllOutdated environ_token lock_data io0))
     = sent (snd (main gh net tz CheckAll environ_token lock_data io0))
  /\ fst (main gh net tz CheckAllOutdated environ_token lock_data io0)
     = fst (main gh net tz CheckAll environ_token lock_data io0).
Proof.
  destruct (filtered_pair_main gh net tz environ_token lock_data [])
    as (r & reqs & n & La & Ls & rs & Ha & Hs & Hra & Hrs).
  unfold io0. rewrite Hra, Hrs. cbn.
  repeat split.
  specialize (Ha []). specialize (Hs []). rewrite app_nil_r in Ha, Hs.
  cbn in Ha, Hs. rewrite app_nil_r in Ha, Hs. now rewrite Ha, Hs.
Qed.

(** ** The nodes of a batch *)

Lemma dict_find_in (l : list (string * json)) (k : string) (v : json) :
  NoDup (map fst l) -> In (k, v) l -> dict_find k l = Some v.
Proof.
  induction l as [|[k' v'] l IH]; cbn; intros Hnd Hin; [contradiction|].
  inversion Hnd as [|? ? Hnotin Hnd']; subst.
  destruct Hin as [Heq|Hin].
  - inversion Heq; subst. now rewrite String.eqb_refl.
  - destruct (String.eqb_spec k k') as [->|_]; [|auto].
    exfalso. apply Hnotin. apply (in_map fst) in Hin. exact Hin.
Qed.

Lemma for_each_ext_in {A} (f g : A -> M unit) (l : list A) :
  (forall x s, In x l -> f x s = g x s) ->
  forall s, for_each f l s = for_each g l s.
Proof.
  induction l as [|x l IH]; intros Hfg s; cbn; [reflexivity|].
  unfold bind. rewrite (Hfg x s (or_introl eq_refl)).
  destruct (g x s) as [[[]|e] s1]; [|reflexivity].
  apply IH. intros y s' Hy. apply Hfg. now right.
Qed.

Lemma for_each_inputs (check : string -> json -> M unit) (lock_data : json)
    (nodes inputs targets : list (string * json)) :
  getitem lock_data "nodes" = Ret (JObj nodes) ->
  Forall2 (names_node nodes) inputs targets ->
  forall s, for_each (visit check lock_data) inputs s = for_each (on_pair check) targets s.
Proof.
  intros Hnodes H. induction H as [|[n key] [n' nd] inputs targets Hx _ IH]; intros s.
  - reflexivity.
  - destruct Hx as (Hn & k & Hkey & Hk). cbn in Hn, Hkey, Hk. subst n' key.
    cbn [for_each]. unfold bind.
    rewrite (visit_present check lock_data (JObj nodes) nd n (JStr k) s Hnodes)
      by (cbn; now rewrite Hk).
    unfold on_pair at 1. cbn [fst snd].
    destruct (check n nd s) as [[[]|e] s1]; [apply IH|reflexivity].
Qed.

(** X18.  The fallback of the earlier version leaves the root out by
    name: after its notice, it checks every node of the lock but the root,
    in the order of the lock. *)
Lemma v2_fallback_skips_root (check : string -> json -> M unit) (lock_data : json)
    (root : string) (nodes : list (string * json)) (s : io) :
  get_default lock_data "root" (JStr "root") = Ret (JStr root) ->
  getitem lock_data "nodes" = Ret (JObj nodes) ->
  v2_fallback check lock_data (JStr root) s
  = (print LNoRootInputs ;;; for_each (on_pair check) (claimed_fallback lock_data)) s.
Proof.
  intros Hroot Hnodes. unfold v2_fallback, claimed_fallback.
  rewrite Hroot, Hnodes. unfold bind at 1 3. cbn [print].
  unfold bind, lift. cbn [items]. unfold print.
  generalize (mkIo (sent s) (out s ++ [LNoRootInputs]) (helper_runs s)).
  clear Hnodes.
  induction nodes as [|[n nd] l IH]; intros s1; cbn; [reflexivity|].
  destruct (String.eqb n root); cbn.
  - apply IH.
  - unfold bind, on_pair at 1. cbn [fst snd].
    destruct (check n nd s1) as [[[]|e] s2]; [apply IH|reflexivity].
Qed.

(** C8 (as stated, refuted).  The root of this lock declares no inputs and
    is itself locked to a GitHub repository: the batch checks it with the
    other nodes, which is not the run over every node but the root. *)
Lemma C8_counterexample :
  root_inputs Examples.locked_root = Ret (JObj [])
  /\ claimed_fallback Examples.locked_root = [("a", Examples.github_node "o" "a" 1000)]
  /\ execution_loop Examples.check_plain Examples.locked_root false io0
     <> for_each (on_pair Examples.check_plain)
          (claimed_fallback Examples.locked_root) io0
  /\ In (mkRequest (RepoUrl (JStr "o") (JStr "self")) [])
        (sent (snd (execution_loop Examples.check_plain Examples.locked_root false io0))).
Proof.
  repeat split.
  - vm_compute. discriminate.
  - vm_compute. tauto.
Qed.

(** C8 (amended).  In a batch, when the root node declares inputs, and
    each of them names a node of the lock, the nodes checked are those
    named by the inputs, each under the name of its input, in the order of
    the inputs; when the root declares none, or the lock has no such node,
    the nodes checked are all the nodes of the lock, the root among them,
    in the order of the lock.  Which of them yields a result is for
    [check] to say. *)
Theorem C8_batch_node_set (check : string -> json -> M unit) (lock_data : json)
    (nodes : list (string * json)) (only_outdated : bool) :
  getitem lock_data "nodes" = Ret (JObj nodes) ->
  (forall inputs targets,
     root_inputs lock_data = Ret (JObj inputs) ->
     inputs <> [] ->
     Forall2 (names_node nodes) inputs targets ->
     forall s, execution_loop check lock_data only_outdated s
               = for_each (on_pair check) targets s)
  /\ (forall inputs,
        root_inputs lock_data = Ret inputs ->
        truthy inputs = false ->
        NoDup (map fst nodes) ->
        Forall (fun item => is_str (snd item) = false) nodes ->
        forall s, execution_loop check lock_data only_outdated s
                  = ((if match nodes with [] => true | _ => false end && negb only_outdated
                      then print LNoInputs else ret tt) ;;;
                     for_each (on_pair check) nodes) s).
Proof.
  intros Hnodes. split.
  - intros inputs targets Hinputs Hne Hnames s.
    unfold execution_loop, target_nodes. rewrite Hinputs. cbn [rbind].
    destruct inputs as [|i inputs]; [contradiction|].
    cbn [truthy items]. unfold bind at 1, lift at 1. cbn [andb].
    unfold bind at 1, ret at 1.
    apply (for_each_inputs check lock_data nodes); assumption.
  - intros inputs Hinputs Hfalsy Hnd Hobj s.
    unfold execution_loop, target_nodes. rewrite Hinputs. cbn [rbind].
    rewrite Hfalsy, Hnodes. cbn [rbind items]. unfold bind at 1, lift at 1.
    unfold bind.
    destruct ((if match nodes with [] => true | _ => false end && negb only_outdated
               then print LNoInputs else ret tt) s) as [[[]|e] s1]; [|reflexivity].
    apply for_each_ext_in. intros [n nd] s2 Hin.
    rewrite Forall_forall in Hobj. specialize (Hobj (n, nd) Hin). cbn in Hobj.
    assert (Hname : actual_node_name n nd = n) by (destruct nd; try reflexivity; discriminate).
    apply (visit_present check lock_data (JObj nodes) nd n nd s2 Hnodes).
    rewrite Hname. cbn. now rewrite (dict_find_in nodes n nd Hnd Hin).
Qed.

Lemma C8_batch_node_set_witness :
  (forall s,
     execution_loop Examples.check_plain Examples.two_inputs false s
     = for_each (on_pair Examples.check_plain)
         [("a", Examples.github_node "o" "a" 1000);
          ("b", Examples.github_node "o" "b" 1000)] s)
  /\ (forall s,
        execution_loop Examples.check_plain Examples.locked_root false s
        = ((if false && negb false then print LNoInputs else ret tt) ;;;
           for_each (on_pair Examples.check_plain)
             [("a", Examples.github_node "o" "a" 1000);
              ("root", Examples.github_node "o" "self" 1000)]) s).
Proof.
  split.
  - apply (proj1 (C8_batch_node_set _ Examples.two_inputs
                    [("a", Examples.github_node "o" "a" 1000);
                     ("b", Examples.github_node "o" "b" 1000);
                     ("root", JObj [("inputs", JObj [("a", JStr "a"); ("b", JStr "b")])])]
                    false eq_refl)
             [("a", JStr "a"); ("b", JStr "b")]).
    + reflexivity.
    + discriminate.
    + repeat constructor; cbn; eexists; split; reflexivity.
  - apply (proj2 (C8_batch_node_set _ Examples.locked_root
                    [("a", Examples.github_node "o" "a" 1000);
                     ("root", Examples.github_node "o" "self" 1000)]
                    false eq_refl)
             (JObj [])).
    + reflexivity.
    + reflexivity.
    + repeat constructor; cbn; intuition discriminate.
    + repeat constructor.
Defined.

(** ** The host's time zone *)

Lemma headed_erase (name : string) (o r : json) (after : list line) :
  map classification (headed name o r (map erase_dt after))
  = map classification (headed name o r after).
Proof.
  destruct after as [|l1 t1]; [reflexivity|].
  destruct l1; try reflexivity.
  destruct t1 as [|l2 t2]; [reflexivity|].
  destruct l2; try reflexivity.
  destruct t2 as [|l3 t3]; [reflexivity|].
  destruct l3; try reflexivity.
  destruct t3 as [|l4 t4]; [reflexivity|].
  destruct l4; reflexivity.
Qed.

Lemma results_of_erase (ls : list line) :
  map classification (results_of (map erase_dt ls))
  = map classification (results_of ls).
Proof.
  induction ls as [|l tl IH]; [reflexivity|].
  destruct l; cbn [map erase_dt results_of]; try exact IH.
  rewrite !map_app, IH, headed_erase. reflexivity.
Qed.

Lemma getitem_raises (v : json) (k : string) (e : exn) :
  getitem v k = Raise e -> e = KeyError \/ e = TypeError.
Proof.
  unfold getitem. destruct v; try (intros H; inversion H; now auto).
  destruct (dict_find _ _); intros H; inversion H; auto.
Qed.

Lemma get_default_raises (v : json) (k : string) (d : json) (e : exn) :
  get_default v k d = Raise e -> e = AttributeError.
Proof.
  unfold get_default. destruct v; try (intros H; inversion H; now auto).
  destruct (dict_find _ _); intros H; inversion H.
Qed.

Lemma as_int_raises (v : json) (e : exn) : as_int v = Raise e -> e = TypeError.
Proof. destruct v; cbn; intros H; inversion H; auto. Qed.

(** What [locked_fields] owes to the host: one conversion, of the locked
    instant of the node, and the text it gives. *)
Lemma locked_fields_without_instant (node_data : json) :
  locked_instant node_data = None ->
  exists r, (forall p, r <> Ret (Some p)) /\ forall tz, locked_fields tz node_data = r.
Proof.
  unfold locked_instant, locked_fields, rtry, rbind.
  destruct (getitem node_data "locked") as [locked|e] eqn:El.
  2:{ intros _. destruct (getitem_raises _ _ _ El) as [->| ->]; cbn;
        eexists; (split; [|intros tz; reflexivity]; intros ?; discriminate). }
  destruct (getitem locked "type") as [ty|e] eqn:Et.
  2:{ intros _. destruct (getitem_raises _ _ _ Et) as [->| ->]; cbn;
        eexists; (split; [|intros tz; reflexivity]; intros ?; discriminate). }
  destruct (ne_github ty).
  { intros _. eexists; (split; [|intros tz; reflexivity]; intros ?; discriminate). }
  destruct (getitem locked "lastModified") as [lm|e] eqn:Em.
  2:{ intros _. destruct (getitem_raises _ _ _ Em) as [->| ->]; cbn;
        eexists; (split; [|intros tz; reflexivity]; intros ?; discriminate). }
  destruct (as_int lm) as [ts|e] eqn:Ei; [intros H; discriminate H|].
  intros _. rewrite (as_int_raises _ _ Ei); cbn.
  eexists; (split; [|intros tz; reflexivity]; intros ?; discriminate).
Qed.

Lemma locked_fields_with_instant (node_data : json) (ts : Z) :
  locked_instant node_data = Some ts ->
  (exists r, (forall p, r <> Ret (Some p))
             /\ forall tz dt, fromtimestamp_astimezone tz ts = Some dt ->
                              locked_fields tz node_data = r)
  \/ (exists o r b,
        forall tz dt, fromtimestamp_astimezone tz ts = Some dt ->
                      locked_fields tz node_data = Ret (Some (mkParsed ts dt o r b))).
Proof.
  unfold locked_instant, locked_fields, rtry, rbind, from_fromtimestamp.
  destruct (getitem node_data "locked") as [locked|e]; [|discriminate].
  destruct (getitem locked "type") as [ty|e]; [|discriminate].
  destruct (ne_github ty); [discriminate|].
  destruct (getitem locked "lastModified") as [lm|e]; [|discriminate].
  destruct (as_int lm) as [ts'|e]; [|discriminate].
  intros H. inversion H; subst ts'. clear H.
  destruct (getitem locked "owner") as [o|e] eqn:Eo.
  2:{ left. destruct (getitem_raises _ _ _ Eo) as [->| ->]; cbn; eexists;
        (split; [|intros tz dt Hdt; rewrite Hdt; cbn; reflexivity]; intros ?; discriminate). }
  destruct (getitem locked "repo") as [r|e] eqn:Er.
  2:{ left. destruct (getitem_raises _ _ _ Er) as [->| ->]; cbn; eexists;
        (split; [|intros tz dt Hdt; rewrite Hdt; cbn; reflexivity]; intros ?; discriminate). }
  destruct (get_default node_data "original" (JObj [])) as [orig|e] eqn:Eg.
  2:{ left. rewrite (get_default_raises _ _ _ _ Eg); cbn. eexists;
        (split; [|intros tz dt Hdt; rewrite Hdt; cbn; reflexivity]; intros ?; discriminate). }
  destruct (get orig "ref") as [b|e] eqn:Eb.
  2:{ left. rewrite (get_default_raises _ _ _ _ Eb); cbn. eexists;
        (split; [|intros tz dt Hdt; rewrite Hdt; cbn; reflexivity]; intros ?; discriminate). }
  right. exists o, r, b. intros tz dt Hdt. rewrite Hdt. reflexivity.
Qed.

Lemma parse_date_raises (v : json) (e : exn) :
  parse_date v = Raise e -> e = ValueError \/ e = TypeError.
Proof.
  unfold parse_date. destruct v; try (intros H; inversion H; now auto).
  destruct (strptime_timestamp s); intros H; inversion H; auto.
Qed.

Lemma determine_branch_no_overflow (net : network) (o r hint : json)
    (hdrs : list (string * string)) (s : io) :
  fst (determine_branch net o r hint hdrs s) <> Raise OverflowError.
Proof.
  unfold determine_branch.
  destruct (negb (truthy hint)); [|discriminate].
  unfold try_except, bind, requests_get, checked_json, lift, ret, raise.
  destruct (net (sent s) (mkRequest (RepoUrl o r) hdrs)) as [|status body];
    cbn; [discriminate|].
  destruct ((400 <=? status) && (status <? 600)); cbn; [discriminate|].
  destruct body as [body|]; cbn; [|discriminate].
  destruct (get body "default_branch") as [b|e] eqn:Eb; cbn; [discriminate|].
  rewrite (get_default_raises _ _ _ _ Eb). cbn. discriminate.
Qed.

(** What [fetch_commit_data] owes to the host: one conversion, of an
    instant that the answer of the server decides. *)
Lemma fetch_commit_data_shape (net : network) (o r branch : json)
    (hdrs : list (string * string)) (s : io) :
  let s' := mkIo (sent s ++ [mkRequest (BranchUrl o r branch) hdrs])
              (out s) (helper_runs s) in
  (exists res, res <> Raise OverflowError /\ (forall x, res <> Ret (Some x))
               /\ forall tz, fetch_commit_data net tz o r branch hdrs s = (res, s'))
  \/ (exists ts,
        forall tz, fetch_commit_data net tz o r branch hdrs s
                   = (match utc_astimezone tz ts with
                      | Some dt => Ret (Some (ts, dt))
                      | None => Raise OverflowError
                      end, s')).
Proof.
  cbn zeta.
  unfold fetch_commit_data, try_except, bind, requests_get, checked_json, lift, ret, raise.
  destruct (net (sent s) (mkRequest (BranchUrl o r branch) hdrs)) as [|status body]; cbn.
  { left. eexists. split; [|split; [|intros tz; reflexivity]];
      [discriminate|intros ?; discriminate]. }
  destruct ((400 <=? status) && (status <? 600)); cbn.
  { left. eexists. split; [|split; [|intros tz; reflexivity]];
      [discriminate|intros ?; discriminate]. }
  destruct body as [data|]; cbn.
  2:{ left. eexists. split; [|split; [|intros tz; reflexivity]];
        [discriminate|intros ?; discriminate]. }
  destruct (getitem data "commit") as [c1|e] eqn:E1; cbn.
  2:{ left. destruct (getitem_raises _ _ _ E1) as [->| ->]; cbn; eexists;
        (split; [|split; [|intros tz; reflexivity]]);
        [discriminate|intros ?; discriminate|discriminate|intros ?; discriminate]. }
  destruct (getitem c1 "commit") as [c2|e] eqn:E2; cbn.
  2:{ left. destruct (getitem_raises _ _ _ E2) as [->| ->]; cbn; eexists;
        (split; [|split; [|intros tz; reflexivity]]);
        [discriminate|intros ?; discriminate|discriminate|intros ?; discriminate]. }
  destruct (getitem c2 "committer") as [c3|e] eqn:E3; cbn.
  2:{ left. destruct (getitem_raises _ _ _ E3) as [->| ->]; cbn; eexists;
        (split; [|split; [|intros tz; reflexivity]]);
        [discriminate|intros ?; discriminate|discriminate|intros ?; discriminate]. }
  destruct (getitem c3 "date") as [d|e] eqn:E4; cbn.
  2:{ left. destruct (getitem_raises _ _ _ E4) as [->| ->]; cbn; eexists;
        (split; [|split; [|intros tz; reflexivity]]);
        [discriminate|intros ?; discriminate|discriminate|intros ?; discriminate]. }
  destruct (parse_date d) as [ts|e] eqn:E5; cbn.
  2:{ left. destruct (parse_date_raises _ _ E5) as [->| ->]; cbn; eexists;
        (split; [|split; [|intros tz; reflexivity]]);
        [discriminate|intros ?; discriminate|discriminate|intros ?; discriminate]. }
  right. exists ts. intros tz.
  destruct (utc_astimezone tz ts); reflexivity.
Qed.

Lemma get_upstream_info_shape (net : network) (o r hint : json)
    (token : option string) (s : io) :
  exists s',
    (exists res, res <> Raise OverflowError /\ (forall x, res <> Ret (Some x))
                 /\ forall tz, get_upstream_info net tz o r hint token s = (res, s'))
    \/ (exists ts,
          forall tz, get_upstream_info net tz o r hint token s
                     = (match utc_astimezone tz ts with
                        | Some dt => Ret (Some (ts, dt))
                        | None => Raise OverflowError
                        end, s')).
Proof.
  unfold get_upstream_info, bind.
  pose proof (determine_branch_no_overflow net o r hint (auth_headers token) s) as Hno.
  destruct (determine_branch net o r hint (auth_headers token) s) as [[[branch|]|e] s1].
  - eexists. exact (fetch_commit_data_shape net o r branch (auth_headers token) s1).
  - exists s1. left. exists (Ret None).
    split; [discriminate|split; [intros ?; discriminate|reflexivity]].
  - exists s1. left. exists (Raise e).
    split; [|split; [intros ?; discriminate|reflexivity]].
    intros H. apply Hno. cbn. inversion H. reflexivity.
Qed.

Lemma report_erased (name : string) (ts up : Z) (dt1 dt2 u1 u2 : string) (o r b : json)
    (only_outdated : bool) (s : io) :
  let run1 := report name (mkParsed ts dt1 o r b) up u1 only_outdated s in
  let run2 := report name (mkParsed ts dt2 o r b) up u2 only_outdated s in
  fst run1 = fst run2
  /\ sent (snd run1) = sent (snd run2)
  /\ map erase_dt (out (snd run1)) = map erase_dt (out (snd run2)).
Proof.
  cbn zeta. unfold report. cbn [downstream_ts downstream_dt owner repo].
  destruct (only_outdated && negb (ts <? up)); [repeat split|].
  destruct (ts <? up); [|destruct (ts >? up)];
    unfold bind, print; cbn; rewrite !map_app; repeat split.
Qed.

(** C10 (as stated, refuted).  The locked instant and the wire timestamp
    are both the last second of the year 9999.  A host on UTC shows them and
    reports the node up to date; a host one hour ahead cannot show the
    locked instant, and its run ends in the conversion with nothing to
    report. *)
Lemma C10_counterexample :
  map classification
    (results_of
       (out (snd (check_input (Examples.net_dated "9999-12-31T23:59:59Z") Examples.plain_host
                    "r" (Examples.github_node "o" "r" 253402300799) None false io0))))
  = [("r", JStr "o", JStr "r", Fresh, 0)]
  /\ check_input (Examples.net_dated "9999-12-31T23:59:59Z") Examples.late_host
       "r" (Examples.github_node "o" "r" 253402300799) None false io0
     = (Raise ValueError, io0)
  /\ map classification
       (results_of
          (out (snd (check_input (Examples.net_dated "9999-12-31T23:59:59Z")
                       Examples.plain_host "r" (Examples.github_node "o" "r" 253402300799)
                       None false io0))))
     <> map classification
          (results_of
             (out (snd (check_input (Examples.net_dated "9999-12-31T23:59:59Z")
                          Examples.late_host "r" (Examples.github_node "o" "r" 253402300799)
                          None false io0)))).
Proof. repeat split. discriminate. Qed.

(** C10 (amended).  Two runs of [check_input] on the same node against the
    same network, on two hosts that can both show the locked instant of the
    node and the upstream instant the server gives: they end the same way,
    send the same requests, and print the same lines but for the text of
    the instants; what they show by way of outcome and lag is the same. *)
Theorem C10_time_zone_is_presentation_only (net : network) (tz1 tz2 : host)
    (name : string) (node_data : json) (token : option string)
    (only_outdated : bool) (s : io) :
  (forall ts, locked_instant node_data = Some ts ->
              fromtimestamp_astimezone tz1 ts <> None
              /\ fromtimestamp_astimezone tz2 ts <> None) ->
  (forall ts, upstream_instant net node_data token s = Some ts ->
              utc_astimezone tz1 ts <> None /\ utc_astimezone tz2 ts <> None) ->
  fst (check_input net tz1 name node_data token only_outdated s)
  = fst (check_input net tz2 name node_data token only_outdated s)
  /\ sent (snd (check_input net tz1 name node_data token only_outdated s))
     = sent (snd (check_input net tz2 name node_data token only_outdated s))
  /\ map erase_dt (out (snd (check_input net tz1 name node_data token only_outdated s)))
     = map erase_dt (out (snd (check_input net tz2 name node_data token only_outdated s)))
  /\ map classification
       (results_of (out (snd (check_input net tz1 name node_data token only_outdated s))))
     = map classification
         (results_of (out (snd (check_input net tz2 name node_data token only_outdated s)))).
Proof.
  intros Hlocked Hupstream.
  assert (Hmain :
    fst (check_input net tz1 name node_data token only_outdated s)
    = fst (check_input net tz2 name node_data token only_outdated s)
    /\ sent (snd (check_input net tz1 name node_data token only_outdated s))
       = sent (snd (check_input net tz2 name node_data token only_outdated s))
    /\ map erase_dt (out (snd (check_input net tz1 name node_data token only_outdated s)))
       = map erase_dt (out (snd (check_input net tz2 name node_data token only_outdated s)))).
  { unfold check_input, bind, lift.
    destruct (locked_instant node_data) as [ts|] eqn:Ets.
    2:{ destruct (locked_fields_without_instant node_data Ets) as (r & Hnone & Hr).
        rewrite !Hr. destruct r as [[p|]|e]; [now destruct (Hnone p)| |]; repeat split. }
    destruct (Hlocked ts eq_refl) as (Hs1 & Hs2).
    destruct (fromtimestamp_astimezone tz1 ts) as [dt1|] eqn:E1; [|now destruct Hs1].
    destruct (fromtimestamp_astimezone tz2 ts) as [dt2|] eqn:E2; [|now destruct Hs2].
    destruct (locked_fields_with_instant node_data ts Ets)
      as [(r & Hnone & Hr)|(o & rp & b & Hr)].
    - rewrite (Hr tz1 dt1 E1), (Hr tz2 dt2 E2).
      destruct r as [[p|]|e]; [now destruct (Hnone p)| |]; repeat split.
    - rewrite (Hr tz1 dt1 E1), (Hr tz2 dt2 E2). cbn [owner repo branch_hint].
      destruct (get_upstream_info_shape net o rp b token s)
        as (s' & [(res & Hres & Hsome & Hrun)|(up & Hrun)]).
      + rewrite !Hrun.
        destruct res as [[x|]|e]; [now destruct (Hsome x)| |repeat split].
        destruct (negb only_outdated); repeat split.
      + assert (Hup : upstream_instant net node_data token s = Some up).
        { unfold upstream_instant. rewrite (Hr ideal_host "" eq_refl).
          cbn [owner repo branch_hint]. rewrite Hrun. reflexivity. }
        destruct (Hupstream up Hup) as (Hu1 & Hu2).
        rewrite !Hrun.
        destruct (utc_astimezone tz1 up) as [u1|]; [|now destruct Hu1].
        destruct (utc_astimezone tz2 up) as [u2|]; [|now destruct Hu2].
        exact (report_erased name ts up dt1 dt2 u1 u2 o rp b only_outdated s'). }
  destruct Hmain as (Hfst & Hsent & Hout).
  repeat split; try assumption.
  rewrite <- results_of_erase, Hout, results_of_erase. reflexivity.
Qed.

Lemma C10_time_zone_is_presentation_only_witness :
  fst (check_input (Examples.net_dated "1970-01-01T00:16:41Z") Examples.plain_host
         "r" (Examples.github_node "o" "r" 1000) None false io0)
  = fst (check_input (Examples.net_dated "1970-01-01T00:16:41Z") Examples.late_host
           "r" (Examples.github_node "o" "r" 1000) None false io0)
  /\ sent (snd (check_input (Examples.net_dated "1970-01-01T00:16:41Z") Examples.plain_host
                  "r" (Examples.github_node "o" "r" 1000) None false io0))
     = sent (snd (check_input (Examples.net_dated "1970-01-01T00:16:41Z") Examples.late_host
                    "r" (Examples.github_node "o" "r" 1000) None false io0))
  /\ map erase_dt
       (out (snd (check_input (Examples.net_dated "1970-01-01T00:16:41Z") Examples.plain_host
                    "r" (Examples.github_node "o" "r" 1000) None false io0)))
     = map erase_dt
         (out (snd (check_input (Examples.net_dated "1970-01-01T00:16:41Z") Examples.late_host
                      "r" (Examples.github_node "o" "r" 1000) None false io0)))
  /\ map classification
       (results_of
          (out (snd (check_input (Examples.net_dated "1970-01-01T00:16:41Z") Examples.plain_host
                       "r" (Examples.github_node "o" "r" 1000) None false io0))))
     = map classification
         (results_of
            (out (snd (check_input (Examples.net_dated "1970-01-01T00:16:41Z") Examples.late_host
                         "r" (Examples.github_node "o" "r" 1000) None false io0)))).
Proof.
  apply (C10_time_zone_is_presentation_only (Examples.net_dated "1970-01-01T00:16:41Z")
           Examples.plain_host Examples.late_host "r" (Examples.github_node "o" "r" 1000)
           None false io0).
  - intros ts Hts. vm_compute in Hts. inversion Hts; subst ts.
    split; vm_compute; discriminate.
  - intros ts Hts. vm_compute in Hts. inversion Hts; subst ts.
    split; vm_compute; discriminate.
Defined.

(** Two hosts in different zones do show the instants differently. *)
Example hosts_differ_in_presentation :
  out (snd (check_input (Examples.net_dated "1970-01-01T00:16:41Z") Examples.plain_host
              "r" (Examples.github_node "o" "r" 1000) None false io0))
  <> out (snd (check_input (Examples.net_dated "1970-01-01T00:16:41Z") Examples.other_host
                 "r" (Examples.github_node "o" "r" 1000) None false io0)).
Proof. vm_compute. discriminate. Qed.

(** Where a host can show the locked instant and not the upstream one, the
    run ends in the second conversion, after the requests. *)
Example unshowable_upstream_instant_ends_the_run :
  fst (check_input (Examples.net_dated "9999-12-31T23:59:59Z") Examples.late_host
         "r" (Examples.github_node "o" "r" 1000) None false io0)
  = Raise OverflowError.
Proof. reflexivity. Qed.

Lemma C6_credential_resolution_witness :
  resolve_token HelperMissing (Some "ghp_example") io0 = (Ret (Some "ghp_example"), io0)
  /\ helper_runs (snd (resolve_token (HelperExited 0 Examples.helper_stdout) None io0)) = 1%nat
  /\ fst (resolve_token (HelperExited 1 "") None io0) = Ret None
  /\ fst (resolve_token (HelperExited 0 "  ") (Some "") io0) = Ret (Some "").
Proof.
  destruct C6_credential_resolution as (Henv & Hhelper & Hnone & Hspace & _).
  split; [|split; [|split]].
  - apply Henv. discriminate.
  - apply (Hhelper (HelperExited 0 Examples.helper_stdout) None io0). reflexivity.
  - apply (Hnone (HelperExited 1 "") None io0); [reflexivity|].
    right. exists 1, "". split; [reflexivity|discriminate].
  - apply (Hspace (Some "") io0 "  "); reflexivity.
Defined.

Example helper_output_is_stripped :
  resolve_token (HelperExited 0 Examples.helper_stdout) None io0 = (Ret (Some "gho_example"), mkIo [] [] 1).
Proof. reflexivity. Qed.

Example helper_that_cannot_run_is_an_error :
  fst (resolve_token HelperDenied None io0) = Raise PermissionError.
Proof. reflexivity. Qed.

(** The stale-only run of a batch with one stale and one fresh input. *)
Example stale_only_batch :
  let net := Examples.net_one_stale in
  map classification
    (results_of (out (snd (main HelperMissing net Examples.plain_host CheckAll None
                             Examples.two_inputs io0))))
  = [("a", JStr "o", JStr "a", Stale, 1); ("b", JStr "o", JStr "b", Fresh, 0)]
  /\ map classification
       (results_of (out (snd (main HelperMissing net Examples.plain_host CheckAllOutdated None
                                Examples.two_inputs io0))))
     = [("a", JStr "o", JStr "a", Stale, 1)]
  /\ List.length (sent (snd (main HelperMissing net Examples.plain_host CheckAllOutdated None
                               Examples.two_inputs io0))) = 4%nat.
Proof. cbn zeta. repeat split. Qed.

(** * Further properties of the code *)

(** ** Resolving the credential touches nothing but the helper count *)

Lemma resolve_token_state (gh : helper) (env : option string) (s : io) :
  sent (snd (resolve_token gh env s)) = sent s
  /\ out (snd (resolve_token gh env s)) = out s.
Proof.
  unfold resolve_token. destruct (token_truthy env); [split; reflexivity|].
  unfold get_token_from_gh_cli, try_except, bind, subprocess_run.
  destruct gh as [| |code stdout|]; cbn; try (split; reflexivity).
  destruct (code =? 0); split; reflexivity.
Qed.

(** X1.  A single-input run for a name that the node mapping does not
    have prints the error line and exits, whatever the credential: not one
    request is sent. *)
Theorem unknown_input_exits (gh : helper) (net : network) (tz : host)
    (flake_input : string) (env : option string) (lock_data : json)
    (nodes : list (string * json)) (s s1 : io) (token : option string) :
  getitem lock_data "nodes" = Ret (JObj nodes) ->
  dict_find flake_input nodes = None ->
  resolve_token gh env s = (Ret token, s1) ->
  main gh net tz (CheckOne flake_input) env lock_data s
  = (Raise SystemExit,
     mkIo (sent s) (out s ++ [LNotFound flake_input]) (helper_runs s1)).
Proof.
  intros Hnodes Hfind Htok.
  destruct (resolve_token_state gh env s) as (Hsent & Hout).
  rewrite Htok in Hsent, Hout. cbn in Hsent, Hout.
  unfold main. unfold bind at 1. rewrite Htok.
  rewrite andb_false_r. unfold bind at 1, ret at 1.
  unfold bind at 1, lift at 1. rewrite Hnodes.
  unfold bind at 1, lift at 1. cbn [contains]. rewrite Hfind. cbn [negb].
  unfold bind, print, raise. cbn. now rewrite Hsent, Hout.
Qed.

Lemma unknown_input_exits_witness :
  main HelperMissing (Examples.net_dated "1970-01-01T00:16:41Z") Examples.plain_host
    (CheckOne "nixpkgs") None Examples.two_inputs io0
  = (Raise SystemExit, mkIo [] ([] ++ [LNotFound "nixpkgs"]) 1).
Proof.
  apply (unknown_input_exits HelperMissing (Examples.net_dated "1970-01-01T00:16:41Z")
           Examples.plain_host "nixpkgs" None Examples.two_inputs
           [("a", Examples.github_node "o" "a" 1000);
            ("b", Examples.github_node "o" "b" 1000);
            ("root", JObj [("inputs", JObj [("a", JStr "a"); ("b", JStr "b")])])]
           io0 (mkIo [] [] 1) None); reflexivity.
Defined.

(** X2.  A credential helper that is there but cannot be started is not
    one of the two failures [get_token_from_gh_cli] expects: without a token
    in the environment every run ends with [PermissionError] before anything
    is printed or sent. *)
Theorem helper_permission_error_aborts (net : network) (tz : host) (args : mode)
    (env : option string) (lock_data : json) (s : io) :
  token_truthy env = false ->
  main HelperDenied net tz args env lock_data s
  = (Raise PermissionError, mkIo (sent s) (out s) (S (helper_runs s))).
Proof.
  intros Henv. unfold main, bind at 1, resolve_token. rewrite Henv. reflexivity.
Qed.

Lemma helper_permission_error_aborts_witness :
  main HelperDenied (Examples.net_dated "1970-01-01T00:16:41Z") Examples.plain_host
    CheckAll (Some "") Examples.two_inputs io0
  = (Raise PermissionError, mkIo [] [] 1).
Proof.
  apply (helper_permission_error_aborts (Examples.net_dated "1970-01-01T00:16:41Z")
           Examples.plain_host CheckAll (Some "") Examples.two_inputs io0).
  reflexivity.
Defined.

(** ** Failures that [requests] reports *)

Lemma fetch_commit_data_failure (net : network) (tz : host) (o r branch : json)
    (hdrs : list (string * string)) (s : io) :
  http_failure (net (sent s) (mkRequest (BranchUrl o r branch) hdrs)) = true ->
  fetch_commit_data net tz o r branch hdrs s
  = (Ret None,
     mkIo (sent s ++ [mkRequest (BranchUrl o r branch) hdrs]) (out s) (helper_runs s)).
Proof.
  unfold fetch_commit_data, try_except, bind, requests_get, checked_json.
  destruct (net (sent s) (mkRequest (BranchUrl o r branch) hdrs)) as [|status body];
    cbn; [reflexivity|].
  destruct ((400 <=? status) && (status <? 600)); cbn; [reflexivity|].
  destruct body; [discriminate|reflexivity].
Qed.

(** X3.  When the request for the branch fails as [requests] reports it
    (no answer, a status from 400 to 599, a body that is not JSON), the node
    is reported unresolvable and [check_input] returns normally: two lines
    when every result is shown, nothing in stale-only mode. *)
Theorem branch_failure_is_unresolvable (net : network) (tz : host) (name : string)
    (node_data : json) (token : option string) (only_outdated : bool)
    (p : parsed_node) (branch : json) (s s1 : io) :
  locked_fields tz node_data = Ret (Some p) ->
  determine_branch net (owner p) (repo p) (branch_hint p) (auth_headers token) s
  = (Ret (Some branch), s1) ->
  http_failure
    (net (sent s1) (mkRequest (BranchUrl (owner p) (repo p) branch) (auth_headers token)))
  = true ->
  check_input net tz name node_data token only_outdated s
  = (Ret tt,
     mkIo (sent s1 ++ [mkRequest (BranchUrl (owner p) (repo p) branch) (auth_headers token)])
          (out s1 ++ (if only_outdated then []
                      else [LChecking name (owner p) (repo p); LCouldNotFetch]))
          (helper_runs s1)).
Proof.
  intros Hp Hb Hfail.
  unfold check_input, bind at 1, lift. rewrite Hp.
  unfold bind at 1, get_upstream_info, bind at 1. rewrite Hb.
  rewrite (fetch_commit_data_failure net tz _ _ _ _ s1 Hfail).
  destruct only_outdated; cbn [negb].
  - unfold ret. cbn. now rewrite app_nil_r.
  - unfold bind, print. cbn. now rewrite <- app_assoc.
Qed.

Lemma branch_failure_is_unresolvable_witness :
  check_input Examples.net_no_branch Examples.plain_host "r"
    (Examples.github_node "o" "r" 1000) None false io0
  = (Ret tt,
     mkIo ([mkRequest (RepoUrl (JStr "o") (JStr "r")) []]
           ++ [mkRequest (BranchUrl (JStr "o") (JStr "r") (JStr "main")) (auth_headers None)])
          ([] ++ [LChecking "r" (JStr "o") (JStr "r"); LCouldNotFetch])
          0).
Proof.
  apply (branch_failure_is_unresolvable Examples.net_no_branch Examples.plain_host "r"
           (Examples.github_node "o" "r" 1000) None false
           (mkParsed 1000 "local" (JStr "o") (JStr "r") JNull) (JStr "main") io0
           (mkIo [mkRequest (RepoUrl (JStr "o") (JStr "r")) []] [] 0));
    reflexivity.
Defined.

(** X4.  Without a usable branch hint the repository's metadata is asked
    for first, and when that request fails as [requests] reports it nothing
    else is sent: [get_upstream_info] gives up after this one request. *)
Theorem metadata_failure_gives_up (net : network) (tz : host) (o r hint : json)
    (token : option string) (s : io) :
  truthy hint = false ->
  http_failure (net (sent s) (mkRequest (RepoUrl o r) (auth_headers token))) = true ->
  get_upstream_info net tz o r hint token s
  = (Ret None,
     mkIo (sent s ++ [mkRequest (RepoUrl o r) (auth_headers token)]) (out s) (helper_runs s)).
Proof.
  intros Hhint Hfail.
  unfold get_upstream_info, bind at 1, determine_branch. rewrite Hhint. cbn [negb].
  unfold try_except, bind, requests_get, checked_json.
  destruct (net (sent s) (mkRequest (RepoUrl o r) (auth_headers token))) as [|status body];
    cbn; [reflexivity|].
  cbn in Hfail.
  destruct ((400 <=? status) && (status <? 600)); cbn; [reflexivity|].
  destruct body; [discriminate|reflexivity].
Qed.

Lemma metadata_failure_gives_up_witness :
  get_upstream_info (fun _ _ => Response 403 None) Examples.plain_host
    (JStr "o") (JStr "r") (JStr "") (Some "t") io0
  = (Ret None,
     mkIo ([] ++ [mkRequest (RepoUrl (JStr "o") (JStr "r")) (auth_headers (Some "t"))]) [] 0).
Proof.
  apply (metadata_failure_gives_up (fun _ _ => Response 403 None) Examples.plain_host
           (JStr "o") (JStr "r") (JStr "") (Some "t") io0); reflexivity.
Defined.

(** X5.  A default branch found in the metadata is used exactly as a hint
    of that name would have been: after the metadata request, the rest of
    [get_upstream_info] is the fetch of that branch. *)
Theorem default_branch_is_used_like_a_hint (net : network) (tz : host) (o r hint b : json)
    (token : option string) (s : io) (status : Z) (fields : list (string * json)) :
  truthy hint = false ->
  net (sent s) (mkRequest (RepoUrl o r) (auth_headers token))
  = Response status (Some (JObj fields)) ->
  (400 <=? status) && (status <? 600) = false ->
  dict_find "default_branch" fields = Some b ->
  truthy b = true ->
  get_upstream_info net tz o r hint token s
  = get_upstream_info net tz o r b token
      (mkIo (sent s ++ [mkRequest (RepoUrl o r) (auth_headers token)])
            (out s) (helper_runs s)).
Proof.
  intros Hhint Hnet Hstatus Hfield Hb.
  assert (Hdefault :
    determine_branch net o r hint (auth_headers token) s
    = (Ret (Some b),
       mkIo (sent s ++ [mkRequest (RepoUrl o r) (auth_headers token)])
            (out s) (helper_runs s))).
  { unfold determine_branch. rewrite Hhint. cbn [negb].
    unfold try_except, bind, requests_get. rewrite Hnet.
    cbn [checked_json]. rewrite Hstatus.
    unfold ret, lift, get, get_default. now rewrite Hfield. }
  assert (Hhinted : forall s0,
    determine_branch net o r b (auth_headers token) s0 = (Ret (Some b), s0)).
  { intros s0. unfold determine_branch. now rewrite Hb. }
  unfold get_upstream_info, bind. now rewrite Hdefault, Hhinted.
Qed.

Lemma default_branch_is_used_like_a_hint_witness :
  get_upstream_info (Examples.net_dated "1970-01-01T00:16:41Z") Examples.plain_host
    (JStr "o") (JStr "r") JNull None io0
  = get_upstream_info (Examples.net_dated "1970-01-01T00:16:41Z") Examples.plain_host
      (JStr "o") (JStr "r") (JStr "main") None
      (mkIo ([] ++ [mkRequest (RepoUrl (JStr "o") (JStr "r")) (auth_headers None)]) [] 0).
Proof.
  apply (default_branch_is_used_like_a_hint (Examples.net_dated "1970-01-01T00:16:41Z")
           Examples.plain_host (JStr "o") (JStr "r") JNull (JStr "main") None io0 200
           [("default_branch", JStr "main")]); reflexivity.
Defined.

(** ** Nodes and locks that are not as expected *)

(** X6.  Only a missing key makes [check_input] pass a node over.  A node
    of the supported type whose [lastModified] is not a number ends it with
    [TypeError], and one whose [original] is not an object ends it with
    [AttributeError]; in both cases before anything is sent or printed. *)
Theorem ill_typed_node_raises (net : network) (tz : host) (name : string)
    (node_data : json) (l : list (string * json)) (token : option string)
    (only_outdated : bool) (s : io) :
  getitem node_data "locked" = Ret (JObj l) ->
  dict_find "type" l = Some (JStr "github") ->
  (forall lm, dict_find "lastModified" l = Some lm -> as_int lm = Raise TypeError ->
              check_input net tz name node_data token only_outdated s = (Raise TypeError, s))
  /\ (forall lm ts dt o r orig,
        dict_find "lastModified" l = Some lm -> as_int lm = Ret ts ->
        fromtimestamp_astimezone tz ts = Some dt ->
        dict_find "owner" l = Some o -> dict_find "repo" l = Some r ->
        getitem node_data "original" = Ret orig ->
        (forall items, orig <> JObj items) ->
        check_input net tz name node_data token only_outdated s
        = (Raise AttributeError, s)).
Proof.
  intros Hlocked Hty. split.
  - intros lm Hlm Hint.
    unfold check_input, bind, lift, locked_fields, rbind, rtry.
    rewrite Hlocked. cbn [getitem]. rewrite Hty.
    cbn [ne_github String.eqb Ascii.eqb Bool.eqb negb]. rewrite Hlm, Hint. reflexivity.
  - intros lm ts dt o r orig Hlm Hint Hdt Ho Hr Horig Hnot.
    unfold check_input, bind, lift, locked_fields, rbind, rtry.
    rewrite Hlocked. cbn [getitem]. rewrite Hty.
    cbn [ne_github String.eqb Ascii.eqb Bool.eqb negb].
    rewrite Hlm, Hint. unfold from_fromtimestamp. rewrite Hdt, Ho, Hr.
    destruct node_data as [| | | | |fields]; try discriminate.
    cbn in Horig |- *. destruct (dict_find "original" fields); [|discriminate].
    inversion Horig; subst.
    destruct orig as [| | | | |items]; try reflexivity.
    now destruct (Hnot items).
Qed.

Lemma ill_typed_node_raises_witness :
  check_input (Examples.net_dated "1970-01-01T00:16:41Z") Examples.plain_host "x"
    Examples.node_text_timestamp None false io0
  = (Raise TypeError, io0)
  /\ check_input (Examples.net_dated "1970-01-01T00:16:41Z") Examples.plain_host "x"
       Examples.node_text_original None false io0
     = (Raise AttributeError, io0).
Proof.
  split.
  - refine (proj1 (ill_typed_node_raises (Examples.net_dated "1970-01-01T00:16:41Z")
                     Examples.plain_host "x" Examples.node_text_timestamp
                     [("lastModified", JStr "1000"); ("owner", JStr "o");
                      ("repo", JStr "r"); ("type", JStr "github")]
                     None false io0 eq_refl eq_refl) (JStr "1000") eq_refl eq_refl).
  - refine (proj2 (ill_typed_node_raises (Examples.net_dated "1970-01-01T00:16:41Z")
                     Examples.plain_host "x" Examples.node_text_original
                     [("lastModified", JInt 1000); ("owner", JStr "o");
                      ("repo", JStr "r"); ("type", JStr "github")]
                     None false io0 eq_refl eq_refl)
              (JInt 1000) 1000 "local" (JStr "o") (JStr "r") (JStr "github:o/r")
              eq_refl eq_refl eq_refl eq_refl eq_refl eq_refl _).
    intros items. discriminate.
Defined.

(** X7.  In the batch loop an input of the root that names no node of the
    lock is passed over without a word, and an input whose value is not a
    string (a list, in a lock that uses [follows]) stands for the node that
    has the input's own name. *)
Theorem loop_resolves_inputs (check : string -> json -> M unit) (lock_data : json)
    (nodes : list (string * json)) (name : string) (node_key : json) (s : io) :
  getitem lock_data "nodes" = Ret (JObj nodes) ->
  (dict_find (actual_node_name name node_key) nodes = None ->
   visit check lock_data (name, node_key) s = (Ret tt, s))
  /\ (forall node_data,
        is_str node_key = false ->
        dict_find name nodes = Some node_data ->
        visit check lock_data (name, node_key) s = check name node_data s).
Proof.
  intros Hnodes. split.
  - intros Hnone. unfold visit, bind, lift. rewrite Hnodes. cbn [contains].
    now rewrite Hnone.
  - intros node_data Hstr Hfind.
    apply (visit_present check lock_data (JObj nodes) node_data name node_key s Hnodes).
    assert (Hname : actual_node_name name node_key = name)
      by (destruct node_key; try reflexivity; discriminate).
    rewrite Hname. cbn. now rewrite Hfind.
Qed.

Lemma loop_resolves_inputs_witness :
  visit Examples.check_plain Examples.two_inputs ("c", JStr "gone") io0 = (Ret tt, io0)
  /\ visit Examples.check_plain Examples.two_inputs ("a", JArr [JStr "b"; JStr "a"]) io0
     = Examples.check_plain "a" (Examples.github_node "o" "a" 1000) io0.
Proof.
  split.
  - refine (proj1 (loop_resolves_inputs Examples.check_plain Examples.two_inputs
                     [("a", Examples.github_node "o" "a" 1000);
                      ("b", Examples.github_node "o" "b" 1000);
                      ("root", JObj [("inputs", JObj [("a", JStr "a"); ("b", JStr "b")])])]
                     "c" (JStr "gone") io0 eq_refl) eq_refl).
  - refine (proj2 (loop_resolves_inputs Examples.check_plain Examples.two_inputs
                     [("a", Examples.github_node "o" "a" 1000);
                      ("b", Examples.github_node "o" "b" 1000);
                      ("root", JObj [("inputs", JObj [("a", JStr "a"); ("b", JStr "b")])])]
                     "a" (JArr [JStr "b"; JStr "a"]) io0 eq_refl)
              (Examples.github_node "o" "a" 1000) eq_refl eq_refl).
Defined.

(** X8.  A lock without a [nodes] mapping, whose [root] is a string or
    missing, ends a batch with [KeyError] before anything is printed or
    sent: the [get] calls that look for the inputs of the root fall back on
    empty dicts, the subscript that follows does not. *)
Theorem lock_without_nodes_raises (check : string -> json -> M unit)
    (fields : list (string * json)) (only_outdated : bool) (s : io) :
  dict_find "nodes" fields = None ->
  (forall v, dict_find "root" fields = Some v -> is_str v = true) ->
  execution_loop check (JObj fields) only_outdated s = (Raise KeyError, s).
Proof.
  intros Hnodes Hroot.
  unfold execution_loop, bind at 1, lift, target_nodes, root_inputs, rbind.
  cbn [get_default getitem]. rewrite Hnodes.
  destruct (dict_find "root" fields) as [v|] eqn:Ev.
  - specialize (Hroot v eq_refl). destruct v; try discriminate. reflexivity.
  - reflexivity.
Qed.

Lemma lock_without_nodes_raises_witness :
  execution_loop Examples.check_plain (JObj [("root", JStr "root"); ("version", JInt 7)])
    false io0
  = (Raise KeyError, io0).
Proof.
  apply (lock_without_nodes_raises Examples.check_plain
           [("root", JStr "root"); ("version", JInt 7)] false io0).
  - reflexivity.
  - intros v Hv. cbn in Hv. inversion Hv. reflexivity.
Defined.

(** ** Invariants of a run *)

Section Steps.

Variable R : io -> io -> Prop.
Hypothesis R_refl : forall s, R s s.
Hypothesis R_trans : forall s1 s2 s3, R s1 s2 -> R s2 s3 -> R s1 s3.

Lemma steps_lift {A} (r : res A) : steps R (lift r).
Proof. intros s. apply R_refl. Qed.

Lemma steps_bind {A B} (c : M A) (k : A -> M B) :
  steps R c -> (forall a, steps R (k a)) -> steps R (bind c k).
Proof.
  intros Hc Hk s. unfold bind. specialize (Hc s).
  destruct (c s) as [[a|e] s1]; cbn in Hc |- *.
  - eapply R_trans; [exact Hc|apply Hk].
  - exact Hc.
Qed.

Lemma steps_try {A} (c handler : M A) (handles : exn -> bool) :
  steps R c -> steps R handler -> steps R (try_except c handles handler).
Proof.
  intros Hc Hh s. unfold try_except. specialize (Hc s).
  destruct (c s) as [[a|e] s1]; cbn in Hc |- *; [exact Hc|].
  destruct (handles e); [|exact Hc].
  eapply R_trans; [exact Hc|apply Hh].
Qed.

Lemma steps_for_each {A} (body : A -> M unit) (l : list A) :
  (forall x, steps R (body x)) -> steps R (for_each body l).
Proof.
  intros Hb. induction l as [|x l IH]; cbn.
  - exact (steps_lift (Ret tt)).
  - apply steps_bind; [apply Hb|intros _; exact IH].
Qed.

(** Whatever holds of [print] and of [requests_get] holds of every part of
    the script that does not start the helper. *)
Hypothesis R_print : forall l, steps R (print l).
Hypothesis R_get : forall net u hdrs, steps R (requests_get net u hdrs).

Lemma steps_checked_json (resp : http_result) : steps R (checked_json resp).
Proof.
  destruct resp as [|status body]; cbn; [apply (steps_lift (Raise RequestException))|].
  destruct ((400 <=? status) && (status <? 600)); [apply (steps_lift (Raise HTTPError))|].
  destruct body; [apply (steps_lift (Ret j))|apply (steps_lift (Raise JSONDecodeError))].
Qed.

Lemma steps_get_upstream_info (net : network) (tz : host) (o r hint : json)
    (token : option string) :
  steps R (get_upstream_info net tz o r hint token).
Proof.
  unfold get_upstream_info. apply steps_bind.
  - unfold determine_branch. destruct (negb (truthy hint)); [|apply (steps_lift (Ret _))].
    apply steps_try; [|apply (steps_lift (Ret _))].
    apply steps_bind; [apply R_get|intros resp].
    apply steps_bind; [apply steps_checked_json|intros body].
    apply steps_bind; [apply steps_lift|intros b]. apply (steps_lift (Ret _)).
  - intros [branch|]; [|apply (steps_lift (Ret _))].
    unfold fetch_commit_data.
    apply steps_try; [|apply (steps_lift (Ret _))].
    apply steps_bind; [apply R_get|intros resp].
    apply steps_bind; [apply steps_checked_json|intros data].
    repeat (apply steps_bind; [apply steps_lift|intros ?]).
    apply (steps_lift (Ret _)).
Qed.

Lemma steps_check_input (net : network) (tz : host) (name : string) (node_data : json)
    (token : option string) (only_outdated : bool) :
  steps R (check_input net tz name node_data token only_outdated).
Proof.
  unfold check_input.
  apply steps_bind; [apply steps_lift|]. intros [p|]; [|apply (steps_lift (Ret tt))].
  apply steps_bind; [apply steps_get_upstream_info|].
  intros [[up up_dt]|].
  - unfold report.
    destruct (only_outdated && negb (downstream_ts p <? up)); [apply (steps_lift (Ret tt))|].
    apply steps_bind; [apply R_print|intros _].
    apply steps_bind; [|intros _; apply R_print].
    destruct (downstream_ts p <? up).
    + repeat (apply steps_bind; [apply R_print|intros _]). apply R_print.
    + destruct (downstream_ts p >? up); apply R_print.
  - destruct (negb only_outdated); [|apply (steps_lift (Ret tt))].
    apply steps_bind; [apply R_print|intros _; apply R_print].
Qed.

Lemma steps_visit (net : network) (tz : host) (token : option string)
    (only_outdated : bool) (lock_data : json) (item : string * json) :
  steps R (visit (fun n d => check_input net tz n d token only_outdated) lock_data item).
Proof.
  destruct item as [name key]. unfold visit.
  apply steps_bind; [apply steps_lift|intros nodes].
  apply steps_bind; [apply steps_lift|intros [|]]; [|apply (steps_lift (Ret tt))].
  apply steps_bind; [apply steps_lift|intros nodes'].
  apply steps_bind; [apply steps_lift|intros nd].
  apply steps_check_input.
Qed.

End Steps.

Lemma same_helper_runs_check_input (net : network) (tz : host) (name : string)
    (node_data : json) (token : option string) (only_outdated : bool) :
  steps same_helper_runs (check_input net tz name node_data token only_outdated).
Proof.
  apply steps_check_input.
  - intros s. reflexivity.
  - intros s1 s2 s3 H12 H23. unfold same_helper_runs in *. congruence.
  - intros l s. reflexivity.
  - intros net' u hdrs s. unfold requests_get, same_helper_runs.
    destruct (net' (sent s) (mkRequest u hdrs)); reflexivity.
Qed.

(** What [main] does once the credential is known keeps to [R] when
    [print] and [requests_get] do. *)
Lemma steps_after_token (R : io -> io -> Prop) (net : network) (tz : host) (args : mode)
    (lock_data : json) (token : option string) :
  (forall s, R s s) ->
  (forall s1 s2 s3, R s1 s2 -> R s2 s3 -> R s1 s3) ->
  (forall l, l <> LTip -> steps R (print l)) ->
  (forall net' u hdrs, steps R (requests_get net' u hdrs)) ->
  steps R
    match args with
    | CheckOne flake_input =>
        nodes <- lift (getitem lock_data "nodes") ;;
        present <- lift (contains nodes flake_input) ;;
        if negb present then print (LNotFound flake_input) ;;; raise SystemExit
        else
          nodes <- lift (getitem lock_data "nodes") ;;
          node_data <- lift (getitem nodes flake_input) ;;
          check_input net tz flake_input node_data token false
    | _ =>
        execution_loop
          (fun name node_data =>
             check_input net tz name node_data token
               match args with CheckAllOutdated => true | _ => false end)
          lock_data match args with CheckAllOutdated => true | _ => false end
    end.
Proof.
  intros Hrefl Htrans Hprint Hget.
  assert (Hcheck : forall name nd oo, steps R (check_input net tz name nd token oo)).
  { intros name nd oo. unfold check_input.
    apply (steps_bind R Htrans); [apply (steps_lift R Hrefl)|].
    intros [p|]; [|apply (steps_lift R Hrefl (Ret tt))].
    apply (steps_bind R Htrans); [apply (steps_get_upstream_info R Hrefl Htrans Hget)|].
    intros [[up up_dt]|].
    - unfold report.
      destruct (oo && negb (downstream_ts p <? up)); [apply (steps_lift R Hrefl (Ret tt))|].
      apply (steps_bind R Htrans); [apply Hprint; discriminate|intros _].
      apply (steps_bind R Htrans); [|intros _; apply Hprint; discriminate].
      destruct (downstream_ts p <? up).
      + repeat (apply (steps_bind R Htrans); [apply Hprint; discriminate|intros _]).
        apply Hprint; discriminate.
      + destruct (downstream_ts p >? up); apply Hprint; discriminate.
    - destruct (negb oo); [|apply (steps_lift R Hrefl (Ret tt))].
      apply (steps_bind R Htrans);
        [apply Hprint; discriminate|intros _; apply Hprint; discriminate]. }
  assert (Hloop : forall oo,
    steps R (execution_loop (fun name nd => check_input net tz name nd token oo)
               lock_data oo)).
  { intros oo. unfold execution_loop.
    apply (steps_bind R Htrans); [apply (steps_lift R Hrefl)|intros targets].
    apply (steps_bind R Htrans).
    { destruct (_ && _); [apply Hprint; discriminate|apply (steps_lift R Hrefl (Ret tt))]. }
    intros _. apply (steps_for_each R Hrefl Htrans). intros [name key]. unfold visit.
    apply (steps_bind R Htrans); [apply (steps_lift R Hrefl)|intros nodes].
    apply (steps_bind R Htrans); [apply (steps_lift R Hrefl)|intros [|]];
      [|apply (steps_lift R Hrefl (Ret tt))].
    apply (steps_bind R Htrans); [apply (steps_lift R Hrefl)|intros nodes'].
    apply (steps_bind R Htrans); [apply (steps_lift R Hrefl)|intros nd].
    apply Hcheck. }
  destruct args as [flake_input| |]; [|apply Hloop|apply Hloop].
  apply (steps_bind R Htrans); [apply (steps_lift R Hrefl)|intros nodes].
  apply (steps_bind R Htrans); [apply (steps_lift R Hrefl)|intros present].
  destruct (negb present).
  - apply (steps_bind R Htrans); [apply Hprint; discriminate|intros _].
    apply (steps_lift R Hrefl (Raise SystemExit)).
  - apply (steps_bind R Htrans); [apply (steps_lift R Hrefl)|intros nodes'].
    apply (steps_bind R Htrans); [apply (steps_lift R Hrefl)|intros nd].
    apply Hcheck.
Qed.

(** X9.  The credential helper is started once in a run that finds no
    token in the environment and not at all in a run that finds one;
    checking the nodes never starts it, however many there are. *)
Theorem helper_runs_at_most_once (gh : helper) (net : network) (tz : host)
    (args : mode) (env : option string) (lock_data : json) (s : io) :
  helper_runs (snd (main gh net tz args env lock_data s))
  = (helper_runs s + (if token_truthy env then 0 else 1))%nat.
Proof.
  assert (Hrefl : forall s0, same_helper_runs s0 s0) by (intros s0; reflexivity).
  assert (Htrans : forall s1 s2 s3, same_helper_runs s1 s2 -> same_helper_runs s2 s3 ->
                                    same_helper_runs s1 s3)
    by (intros s1 s2 s3 H12 H23; unfold same_helper_runs in *; congruence).
  assert (Hprint : forall l, steps same_helper_runs (print l)) by (intros l s0; reflexivity).
  assert (Hget : forall net' u hdrs, steps same_helper_runs (requests_get net' u hdrs)).
  { intros net' u hdrs s0. unfold requests_get, same_helper_runs.
    destruct (net' (sent s0) (mkRequest u hdrs)); reflexivity. }
  assert (Htok : helper_runs (snd (resolve_token gh env s))
                 = (helper_runs s + (if token_truthy env then 0 else 1))%nat).
  { unfold resolve_token. destruct (token_truthy env); cbn; [lia|].
    unfold get_token_from_gh_cli, try_except, bind, subprocess_run.
    destruct gh as [| |code stdout|]; cbn; try lia.
    destruct (code =? 0); cbn; lia. }
  unfold main. unfold bind at 1.
  destruct (resolve_token gh env s) as [[token|e] s1]; cbn in Htok |- *; [|exact Htok].
  rewrite <- Htok.
  refine (steps_bind same_helper_runs Htrans _ _ _ _ s1).
  - destruct (_ && _); [|apply (steps_lift _ Hrefl (Ret tt))].
    destruct (negb _); [apply Hprint|apply (steps_lift _ Hrefl (Ret tt))].
  - intros _. apply (steps_after_token same_helper_runs); try assumption.
    intros l _. apply Hprint.
Qed.

Lemma no_new_tip_refl (s : io) : no_new_tip s s.
Proof. exists []. split; [now rewrite app_nil_r|intros []]. Qed.

Lemma no_new_tip_trans (s1 s2 s3 : io) :
  no_new_tip s1 s2 -> no_new_tip s2 s3 -> no_new_tip s1 s3.
Proof.
  intros (L1 & H1 & N1) (L2 & H2 & N2). exists (L1 ++ L2). split.
  - now rewrite H2, H1, app_assoc.
  - intros Hin. apply in_app_or in Hin. tauto.
Qed.

(** X10.  The tip about rate limits is the first line of a run that shows
    every result of a batch without a credential, and it is printed once;
    no other run prints it: not a stale-only run, not a run for one input,
    not a run with a credential. *)
Theorem tip_first_or_never (gh : helper) (net : network) (tz : host) (args : mode)
    (env : option string) (lock_data : json) (token : option string) (s1 : io) :
  resolve_token gh env io0 = (Ret token, s1) ->
  (token_truthy token = false -> args = CheckAll ->
   exists L, out (snd (main gh net tz args env lock_data io0)) = LTip :: L
             /\ ~ In LTip L)
  /\ (token_truthy token = true \/ args <> CheckAll ->
      ~ In LTip (out (snd (main gh net tz args env lock_data io0)))).
Proof.
  intros Htok.
  destruct (resolve_token_state gh env io0) as (_ & Hout).
  rewrite Htok in Hout. cbn in Hout.
  assert (Hrest : forall s2, no_new_tip s2
    (snd (match args with
          | CheckOne flake_input =>
              nodes <- lift (getitem lock_data "nodes") ;;
              present <- lift (contains nodes flake_input) ;;
              if negb present then print (LNotFound flake_input) ;;; raise SystemExit
              else
                nodes <- lift (getitem lock_data "nodes") ;;
                node_data <- lift (getitem nodes flake_input) ;;
                check_input net tz flake_input node_data token false
          | _ =>
              execution_loop
                (fun name node_data =>
                   check_input net tz name node_data token
                     match args with CheckAllOutdated => true | _ => false end)
                lock_data match args with CheckAllOutdated => true | _ => false end
          end s2))).
  { apply (steps_after_token no_new_tip net tz args lock_data token).
    - exact no_new_tip_refl.
    - exact no_new_tip_trans.
    - intros l Hl s. exists [l]. split; [reflexivity|]. intros [H|[]]. now apply Hl.
    - intros net' u hdrs s. unfold requests_get. exists [].
      split; [|intros []].
      destruct (net' (sent s) (mkRequest u hdrs)); cbn; now rewrite app_nil_r. }
  split.
  - intros Hfalsy ->.
    unfold main. unfold bind at 1. rewrite Htok. unfold bind at 1.
    rewrite Hfalsy. cbn [negb andb print].
    match goal with |- context [execution_loop ?c ?l ?o ?st] =>
      destruct (Hrest st) as (L & HL & HN) end.
    exists L. split; [|exact HN].
    rewrite HL. cbn. now rewrite Hout.
  - intros Hcase.
    unfold main. unfold bind at 1. rewrite Htok. unfold bind at 1.
    assert (Hnotip :
      (if negb (token_truthy token) && match args with CheckOne _ => false | _ => true end
       then if negb match args with CheckAllOutdated => true | _ => false end
            then print LTip else ret tt
       else ret tt) s1 = (Ret tt, s1)).
    { destruct Hcase as [Ht|Ha].
      - rewrite Ht. reflexivity.
      - destruct args as [flake_input| |].
        + now rewrite andb_false_r.
        + now destruct Ha.
        + destruct (negb (token_truthy token)); reflexivity. }
    rewrite Hnotip.
    destruct (Hrest s1) as (L & HL & HN). rewrite HL, Hout. exact HN.
Qed.

Lemma tip_first_or_never_witness :
  (exists L, out (snd (main HelperMissing (Examples.net_dated "1970-01-01T00:16:41Z")
                         Examples.plain_host CheckAll None Examples.two_inputs io0))
             = LTip :: L
             /\ ~ In LTip L)
  /\ ~ In LTip (out (snd (main HelperMissing (Examples.net_dated "1970-01-01T00:16:41Z")
                            Examples.plain_host CheckAllOutdated None
                            Examples.two_inputs io0))).
Proof.
  split.
  - refine (proj1 (tip_first_or_never HelperMissing (Examples.net_dated "1970-01-01T00:16:41Z")
                     Examples.plain_host CheckAll None Examples.two_inputs None
                     (mkIo [] [] 1) eq_refl) eq_refl eq_refl).
  - refine (proj2 (tip_first_or_never HelperMissing (Examples.net_dated "1970-01-01T00:16:41Z")
                     Examples.plain_host CheckAllOutdated None Examples.two_inputs None
                     (mkIo [] [] 1) eq_refl) _).
    right. discriminate.
Defined.

(** What [main] does once the credential is known sends requests with the
    headers of that credential only. *)
Lemma sends_after_token (P : request -> Prop) (net : network) (tz : host) (args : mode)
    (lock_data : json) (token : option string) :
  (forall q, req_headers q = auth_headers token -> P q) ->
  sends P
    match args with
    | CheckOne flake_input =>
        nodes <- lift (getitem lock_data "nodes") ;;
        present <- lift (contains nodes flake_input) ;;
        if negb present then print (LNotFound flake_input) ;;; raise SystemExit
        else
          nodes <- lift (getitem lock_data "nodes") ;;
          node_data <- lift (getitem nodes flake_input) ;;
          check_input net tz flake_input node_data token false
    | _ =>
        execution_loop
          (fun name node_data =>
             check_input net tz name node_data token
               match args with CheckAllOutdated => true | _ => false end)
          lock_data match args with CheckAllOutdated => true | _ => false end
    end.
Proof.
  intros HP.
  assert (Hcheck : forall name nd oo, sends P (check_input net tz name nd token oo)).
  { intros name nd oo. unfold check_input.
    apply sends_bind; [apply sends_lift|]. intros [p|]; [|apply sends_lift].
    apply sends_bind.
    - apply (sends_net_only P (auth_headers token)); [exact HP|].
      apply get_upstream_info_net_only.
    - intros [[up up_dt]|].
      + unfold report.
        destruct (oo && negb (downstream_ts p <? up)); [apply sends_lift|].
        apply sends_bind; [apply sends_print|intros _].
        apply sends_bind; [|intros _; apply sends_print].
        destruct (downstream_ts p <? up).
        * repeat (apply sends_bind; [apply sends_print|intros _]). apply sends_print.
        * destruct (downstream_ts p >? up); apply sends_print.
      + destruct (negb oo); [|apply sends_lift].
        apply sends_bind; [apply sends_print|intros _; apply sends_print]. }
  assert (Hloop : forall oo,
    sends P (execution_loop (fun name nd => check_input net tz name nd token oo)
               lock_data oo)).
  { intros oo. unfold execution_loop.
    apply sends_bind; [apply sends_lift|intros targets].
    apply sends_bind.
    { destruct (_ && _); [apply sends_print|apply sends_lift]. }
    intros _. apply sends_for_each. intros [name key]. unfold visit.
    apply sends_bind; [apply sends_lift|intros nodes].
    apply sends_bind; [apply sends_lift|intros [|]]; [|apply sends_lift].
    apply sends_bind; [apply sends_lift|intros nodes'].
    apply sends_bind; [apply sends_lift|intros nd].
    apply Hcheck. }
  destruct args as [flake_input| |]; [|apply Hloop|apply Hloop].
  apply sends_bind; [apply sends_lift|intros nodes].
  apply sends_bind; [apply sends_lift|intros present].
  destruct (negb present).
  - apply sends_bind; [apply sends_print|intros _; apply sends_lift].
  - apply sends_bind; [apply sends_lift|intros nodes'].
    apply sends_bind; [apply sends_lift|intros nd].
    apply Hcheck.
Qed.

(** X11.  Every request of a run carries the headers of the one credential
    resolved at its start: the [Authorization] header with that token when
    there is one, no header at all when there is none. *)
Theorem one_credential_per_run (gh : helper) (net : network) (tz : host) (args : mode)
    (env : option string) (lock_data : json) (token : option string) (s1 : io)
    (q : request) :
  resolve_token gh env io0 = (Ret token, s1) ->
  In q (sent (snd (main gh net tz args env lock_data io0))) ->
  req_headers q = auth_headers token.
Proof.
  intros Htok Hq.
  destruct (resolve_token_state gh env io0) as (Hsent & _).
  rewrite Htok in Hsent. cbn in Hsent.
  revert Hq. unfold main. unfold bind at 1. rewrite Htok. unfold bind at 1.
  assert (Hs2 : forall c : M unit,
            (c = print LTip \/ c = ret tt) ->
            sent (snd (c s1)) = [] /\ exists r s2, c s1 = (Ret r, s2)).
  { intros c [-> | ->].
    - split; [exact Hsent|]. exists tt. eexists. reflexivity.
    - split; [exact Hsent|]. exists tt. eexists. reflexivity. }
  match goal with |- context [match ?c s1 with _ => _ end] =>
    assert (Hc : c = print LTip \/ c = ret tt)
      by (destruct (_ && _); [destruct (negb _)|]; auto);
    destruct (Hs2 c Hc) as (Hnil & r & s2 & Hrun)
  end.
  rewrite Hrun in *. cbn in Hnil.
  intros Hq.
  pose proof (sends_after_token (fun q => req_headers q = auth_headers token)
                net tz args lock_data token (fun q H => H) s2) as Hall.
  rewrite Hnil in Hall. specialize (Hall (Forall_nil _)).
  rewrite Forall_forall in Hall. exact (Hall q Hq).
Qed.

Lemma one_credential_per_run_witness :
  req_headers (mkRequest (RepoUrl (JStr "o") (JStr "a"))
                 [("Authorization", "token ghp_example")])
  = auth_headers (Some "ghp_example").
Proof.
  apply (one_credential_per_run HelperMissing (Examples.net_dated "1970-01-01T00:16:41Z")
           Examples.plain_host CheckAll (Some "ghp_example") Examples.two_inputs
           (Some "ghp_example") io0).
  - reflexivity.
  - vm_compute. left. reflexivity.
Defined.

(** ** Counting requests and results *)

Lemma quiet_upto_lift {A} (r : res A) : quiet_upto 0 (lift r).
Proof.
  intros hist. exists r, [], 0%nat. split; [cbn; lia|].
  intros o h. unfold lift. now rewrite app_nil_r.
Qed.

Lemma quiet_upto_le {A} (k k' : nat) (c : M A) :
  (k <= k')%nat -> quiet_upto k c -> quiet_upto k' c.
Proof.
  intros Hle Hc hist. destruct (Hc hist) as (r & reqs & n & Hlen & Hrun).
  exists r, reqs, n. split; [lia|exact Hrun].
Qed.

Lemma quiet_upto_bind {A B} (k1 k2 : nat) (c : M A) (f : A -> M B) :
  quiet_upto k1 c -> (forall a, quiet_upto k2 (f a)) -> quiet_upto (k1 + k2) (bind c f).
Proof.
  intros Hc Hf hist. destruct (Hc hist) as (r & reqs & n & Hlen & Hrun).
  destruct r as [a|e].
  - destruct (Hf a (hist ++ reqs)) as (r' & reqs' & n' & Hlen' & Hrun').
    exists r', (reqs ++ reqs'), (n' + n)%nat. split.
    + rewrite length_app. lia.
    + intros o h. unfold bind. rewrite Hrun, Hrun'. now rewrite app_assoc, Nat.add_assoc.
  - exists (Raise e), reqs, n. split; [lia|].
    intros o h. unfold bind. now rewrite Hrun.
Qed.

Lemma quiet_upto_try {A} (k : nat) (c : M A) (handles : exn -> bool) (a : A) :
  quiet_upto k c -> quiet_upto k (try_except c handles (ret a)).
Proof.
  intros Hc hist. destruct (Hc hist) as (r & reqs & n & Hlen & Hrun).
  exists (match r with
          | Raise e => if handles e then Ret a else Raise e
          | Ret x => Ret x
          end), reqs, n.
  split; [exact Hlen|].
  intros o h. unfold try_except. rewrite Hrun.
  destruct r as [x|e]; [reflexivity|]. destruct (handles e); reflexivity.
Qed.

Lemma quiet_upto_requests_get (net : network) (u : url) (hdrs : list (string * string)) :
  quiet_upto 1 (requests_get net u hdrs).
Proof.
  intros hist.
  exists (match net hist (mkRequest u hdrs) with
          | NoResponse => Raise RequestException
          | resp => Ret resp
          end), [mkRequest u hdrs], 0%nat.
  split; [cbn; lia|].
  intros o h. unfold requests_get. cbn.
  destruct (net hist (mkRequest u hdrs)); reflexivity.
Qed.

Lemma quiet_upto_checked_json (resp : http_result) : quiet_upto 0 (checked_json resp).
Proof.
  destruct resp as [|status body]; cbn; [apply (quiet_upto_lift (Raise RequestException))|].
  destruct ((400 <=? status) && (status <? 600)); [apply (quiet_upto_lift (Raise HTTPError))|].
  destruct body as [j|];
    [apply (quiet_upto_lift (Ret j))|apply (quiet_upto_lift (Raise JSONDecodeError))].
Qed.

(** X12.  [get_upstream_info] sends one request or two and never more, so
    that nothing is ever asked twice of the server for one node. *)
Theorem at_most_two_requests (net : network) (tz : host) (o r hint : json)
    (token : option string) (s : io) :
  exists reqs,
    sent (snd (get_upstream_info net tz o r hint token s)) = sent s ++ reqs
    /\ (1 <= List.length reqs <= 2)%nat
    /\ out (snd (get_upstream_info net tz o r hint token s)) = out s.
Proof.
  unfold get_upstream_info, bind.
  assert (Hd : exists r0 reqs0,
             (List.length reqs0 <= 1)%nat /\
             (forall b, r0 = Ret (Some b) -> truthy hint = true -> reqs0 = []) /\
             (truthy hint = false -> List.length reqs0 = 1%nat) /\
             determine_branch net o r hint (auth_headers token) s
             = (r0, mkIo (sent s ++ reqs0) (out s) (helper_runs s))).
  { unfold determine_branch. destruct (truthy hint); cbn [negb].
    - exists (Ret (Some hint)), []. repeat split; try (cbn; lia); try discriminate.
      unfold ret. destruct s; cbn. now rewrite app_nil_r.
    - unfold try_except, bind, requests_get, checked_json, lift, ret, raise.
      destruct (net (sent s) (mkRequest (RepoUrl o r) (auth_headers token)))
        as [|status body]; cbn.
      { eexists _, [_]. repeat split; try (cbn; lia); discriminate. }
      destruct ((400 <=? status) && (status <? 600)); cbn.
      { eexists _, [_]. repeat split; try (cbn; lia); discriminate. }
      destruct body as [body|]; cbn.
      2:{ eexists _, [_]. repeat split; try (cbn; lia); discriminate. }
      destruct (get body "default_branch") as [b|e]; cbn.
      { eexists _, [_]. repeat split; try (cbn; lia); discriminate. }
      destruct (is_RequestException e);
        eexists _, [_]; repeat split; try (cbn; lia); discriminate. }
  destruct Hd as (r0 & reqs0 & Hlen & Hhinted & Hasked & Hrun). rewrite Hrun.
  destruct r0 as [[b|]|e].
  - destruct (fetch_commit_data_run net tz o r b (auth_headers token)
                (mkIo (sent s ++ reqs0) (out s) (helper_runs s))) as (res & Hf).
    rewrite Hf. cbn. eexists. split; [now rewrite <- app_assoc|].
    split; [rewrite length_app; cbn; lia|reflexivity].
  - cbn. exists reqs0. split; [reflexivity|]. split; [|reflexivity].
    destruct (truthy hint) eqn:Eh.
    + exfalso. revert Hrun. unfold determine_branch. rewrite Eh. cbn. discriminate.
    + specialize (Hasked eq_refl). lia.
  - cbn. exists reqs0. split; [reflexivity|]. split; [|reflexivity].
    destruct (truthy hint) eqn:Eh.
    + exfalso. revert Hrun. unfold determine_branch. rewrite Eh. cbn. discriminate.
    + specialize (Hasked eq_refl). lia.
Qed.

Lemma quiet_upto_get_upstream_info (net : network) (tz : host) (o r hint : json)
    (token : option string) :
  quiet_upto 2 (get_upstream_info net tz o r hint token).
Proof.
  unfold get_upstream_info. apply (quiet_upto_bind 1 1).
  - unfold determine_branch.
    destruct (negb (truthy hint));
      [|apply (quiet_upto_le 0 1); [lia|apply (quiet_upto_lift (Ret _))]].
    apply quiet_upto_try. apply (quiet_upto_bind 1 0); [apply quiet_upto_requests_get|].
    intros resp. apply (quiet_upto_bind 0 0); [apply quiet_upto_checked_json|].
    intros body. apply (quiet_upto_bind 0 0); [apply quiet_upto_lift|].
    intros b. apply (quiet_upto_lift (Ret _)).
  - intros [branch|];
      [|apply (quiet_upto_le 0 1); [lia|apply (quiet_upto_lift (Ret _))]].
    unfold fetch_commit_data.
    apply quiet_upto_try. apply (quiet_upto_bind 1 0); [apply quiet_upto_requests_get|].
    intros resp. apply (quiet_upto_bind 0 0); [apply quiet_upto_checked_json|].
    intros data.
    repeat (apply (quiet_upto_bind 0 0); [apply quiet_upto_lift|intros ?]).
    apply (quiet_upto_lift (Ret _)).
Qed.

Lemma quiet_upto_resolve_token (gh : helper) (env : option string) :
  quiet_upto 0 (resolve_token gh env).
Proof.
  intros hist. destruct (quiet_resolve_token gh env hist) as (r & reqs & n & Hrun).
  exists r, reqs, n. split; [|exact Hrun].
  specialize (Hrun [] 0%nat).
  pose proof (resolve_token_state gh env (mkIo hist [] 0)) as (Hsent & _).
  rewrite Hrun in Hsent. cbn in Hsent.
  assert (reqs = []) as ->; [|cbn; lia].
  apply (app_inv_head hist). now rewrite app_nil_r.
Qed.

Section Yields.

Variable P : result -> Prop.

Lemma yields_lines (L : list line) (rs : list result) (nres : nat) (c : M unit) :
  blocks L rs -> Forall P rs -> (List.length rs <= nres)%nat ->
  (forall s, c s = (Ret tt, mkIo (sent s) (out s ++ L) (helper_runs s))) ->
  yields P nres 0 c.
Proof.
  intros HL HP Hlen Hc hist. exists (Ret tt), [], 0%nat, L, rs.
  repeat split; try assumption; [cbn; lia|].
  intros o h. rewrite Hc. cbn. now rewrite app_nil_r.
Qed.

Lemma yields_skip : yields P 0 0 (ret tt).
Proof.
  apply (yields_lines [] []); [apply blocks_nil|constructor|cbn; lia|].
  intros [hist o h]. unfold ret. cbn. now rewrite app_nil_r.
Qed.

Lemma yields_notice (l : line) :
  (forall n o r, l <> LChecking n o r) -> yields P 0 0 (print l).
Proof.
  intros Hl. apply (yields_lines [l] []); [|constructor|cbn; lia|intros s; reflexivity].
  intros rest. destruct l; try reflexivity. now destruct (Hl name owner0 repo0).
Qed.

Lemma yields_raise (e : exn) : yields P 0 0 (raise e).
Proof.
  intros hist. exists (Raise e), [], 0%nat, [], [].
  repeat split; try apply blocks_nil; try constructor; try (cbn; lia).
  intros o h. unfold raise. now rewrite !app_nil_r.
Qed.

Lemma yields_le (nres nres' nreq nreq' : nat) (c : M unit) :
  (nres <= nres')%nat -> (nreq <= nreq')%nat -> yields P nres nreq c -> yields P nres' nreq' c.
Proof.
  intros H1 H2 Hc hist.
  destruct (Hc hist) as (r & reqs & n & L & rs & HL & HP & Hl1 & Hl2 & Hrun).
  exists r, reqs, n, L, rs. repeat split; try assumption; lia.
Qed.

Lemma yields_bind {A} (k nres nreq : nat) (c : M A) (f : A -> M unit) :
  quiet_upto k c -> (forall a, yields P nres nreq (f a)) ->
  yields P nres (k + nreq) (bind c f).
Proof.
  intros Hc Hf hist. destruct (Hc hist) as (r & reqs & n & Hlen & Hrun).
  destruct r as [a|e].
  - destruct (Hf a (hist ++ reqs)) as (r' & reqs' & n' & L & rs & HL & HP & Hl1 & Hl2 & Hrun').
    exists r', (reqs ++ reqs'), (n' + n)%nat, L, rs.
    repeat split; try assumption; [rewrite length_app; lia|].
    intros o h. unfold bind. rewrite Hrun, Hrun'. now rewrite app_assoc, Nat.add_assoc.
  - exists (Raise e), reqs, n, [], [].
    repeat split; try apply blocks_nil; try constructor; try (cbn; lia).
    intros o h. unfold bind. rewrite Hrun. now rewrite app_nil_r.
Qed.

Lemma yields_seq (a b a' b' : nat) (c k : M unit) :
  yields P a b c -> yields P a' b' k -> yields P (a + a') (b + b') (c ;;; k).
Proof.
  intros Hc Hk hist.
  destruct (Hc hist) as (r & reqs & n & L & rs & HL & HP & Hl1 & Hl2 & Hrun).
  destruct r as [[]|e].
  - destruct (Hk (hist ++ reqs))
      as (r' & reqs' & n' & L' & rs' & HL' & HP' & Hl1' & Hl2' & Hrun').
    exists r', (reqs ++ reqs'), (n' + n)%nat, (L ++ L'), (rs ++ rs').
    repeat split.
    + now apply blocks_app.
    + apply Forall_app. now split.
    + rewrite length_app. lia.
    + rewrite length_app. lia.
    + intros o h. unfold bind. rewrite Hrun, Hrun'.
      now rewrite !app_assoc, Nat.add_assoc.
  - exists (Raise e), reqs, n, L, rs.
    repeat split; try assumption; try lia.
    intros o h. unfold bind. now rewrite Hrun.
Qed.

Lemma yields_for_each {A} (a b : nat) (body : A -> M unit) (l : list A) :
  (forall x, In x l -> yields P a b (body x)) ->
  yields P (List.length l * a) (List.length l * b) (for_each body l).
Proof.
  induction l as [|x l IH]; intros Hb; cbn [for_each List.length Nat.mul].
  - apply yields_skip.
  - apply yields_seq; [apply Hb; now left|].
    apply IH. intros y Hy. apply Hb. now right.
Qed.

End Yields.

Lemma yields_impl (P Q : result -> Prop) (nres nreq : nat) (c : M unit) :
  (forall r, P r -> Q r) -> yields P nres nreq c -> yields Q nres nreq c.
Proof.
  intros HPQ Hc hist.
  destruct (Hc hist) as (r & reqs & n & L & rs & HL & HP & Hl1 & Hl2 & Hrun).
  exists r, reqs, n, L, rs. repeat split; try assumption.
  eapply Forall_impl; [exact HPQ|exact HP].
Qed.

Lemma check_input_yields (net : network) (tz : host) (name : string) (node_data : json)
    (token : option string) (only_outdated : bool) :
  yields (fun r => nodeName r = name /\ well_formed_result r) 1 2
    (check_input net tz name node_data token only_outdated).
Proof.
  unfold check_input.
  apply (yields_bind _ 0 1 2); [apply quiet_upto_lift|].
  intros [p|]; [|apply (yields_le _ 0 1 0 2); [lia|lia|apply yields_skip]].
  apply (yields_le _ 1 1 (2 + 0) 2); [lia|lia|].
  apply yields_bind; [apply quiet_upto_get_upstream_info|].
  intros [[up up_dt]|].
  - destruct (report_run name p up up_dt only_outdated io0) as (L & Hrun & Hlt & Hgt & Heq).
    cbn in Hrun.
    pose proof (report_lines_at name p up up_dt only_outdated L Hrun) as Hall.
    destruct (Z.lt_trichotomy (downstream_ts p) up) as [H|[H|H]].
    + apply (yields_lines _ L
               [mkResult name (owner p) (repo p) Stale (up - downstream_ts p)
                  (Some (downstream_dt p)) (Some up_dt)]); try assumption.
      * rewrite (Hlt H). intros rest. reflexivity.
      * repeat constructor; cbn; try lia; discriminate.
      * cbn; lia.
    + destruct only_outdated.
      * apply (yields_lines _ L []); try assumption;
          [rewrite (Heq H); apply blocks_nil|constructor|cbn; lia].
      * apply (yields_lines _ L [mkResult name (owner p) (repo p) Fresh 0 None None]);
          try assumption.
        -- rewrite (Heq H). intros rest. reflexivity.
        -- repeat constructor.
        -- cbn; lia.
    + apply Z.lt_gt in H. destruct only_outdated.
      * apply (yields_lines _ L []); try assumption;
          [rewrite (Hgt H); apply blocks_nil|constructor|cbn; lia].
      * apply (yields_lines _ L
                 [mkResult name (owner p) (repo p) LocalAhead (downstream_ts p - up)
                    None None]); try assumption.
        -- rewrite (Hgt H). intros rest. reflexivity.
        -- repeat constructor; cbn; lia.
        -- cbn; lia.
  - destruct only_outdated; cbn [negb].
    + apply (yields_le _ 0 1 0 0); [lia|lia|apply yields_skip].
    + apply (yields_lines _ [LChecking name (owner p) (repo p); LCouldNotFetch]
               [mkResult name (owner p) (repo p) Unresolvable 0 None None]).
      * intros rest. reflexivity.
      * repeat constructor.
      * cbn; lia.
      * intros s. unfold bind, print. cbn. now rewrite <- app_assoc.
Qed.

Lemma loop_yields (net : network) (tz : host) (token : option string)
    (only_outdated : bool) (lock_data : json) (targets : list (string * json)) :
  yields (fun r => In (nodeName r) (map fst targets) /\ well_formed_result r)
    (List.length targets * 1) (List.length targets * 2)
    (for_each (visit (fun n d => check_input net tz n d token only_outdated) lock_data)
       targets).
Proof.
  apply yields_for_each. intros [name key] Hin. unfold visit.
  apply (yields_bind _ 0 1 2); [apply quiet_upto_lift|intros nodes].
  apply (yields_bind _ 0 1 2); [apply quiet_upto_lift|intros [|]];
    [|apply (yields_le _ 0 1 0 2); [lia|lia|apply yields_skip]].
  apply (yields_bind _ 0 1 2); [apply quiet_upto_lift|intros nodes'].
  apply (yields_bind _ 0 1 2); [apply quiet_upto_lift|intros nd].
  apply (yields_impl (fun r => nodeName r = name /\ well_formed_result r));
    [|apply check_input_yields].
  intros r [Hname Hwf]. split; [|exact Hwf].
  rewrite Hname. apply (in_map fst) in Hin. exact Hin.
Qed.

Lemma yields_ext (P : result -> Prop) (nres nreq : nat) (c c' : M unit) :
  (forall s, c' s = c s) -> yields P nres nreq c -> yields P nres nreq c'.
Proof.
  intros Hext Hc hist.
  destruct (Hc hist) as (r & reqs & n & L & rs & HL & HP & Hl1 & Hl2 & Hrun).
  exists r, reqs, n, L, rs. repeat split; try assumption.
  intros o h. rewrite Hext. apply Hrun.
Qed.

Lemma yields_at_io0 (P : result -> Prop) (nres nreq : nat) (c : M unit) :
  yields P nres nreq c ->
  Forall P (results_of (out (snd (c io0))))
  /\ (List.length (results_of (out (snd (c io0)))) <= nres)%nat
  /\ (List.length (sent (snd (c io0))) <= nreq)%nat.
Proof.
  intros Hc. destruct (Hc []) as (r & reqs & n & L & rs & HL & HP & Hl1 & Hl2 & Hrun).
  unfold io0. rewrite Hrun. cbn.
  specialize (HL []). rewrite app_nil_r in HL. cbn in HL. rewrite app_nil_r in HL.
  rewrite HL. auto.
Qed.

Lemma main_batch_yields (gh : helper) (net : network) (tz : host)
    (only_outdated : bool) (env : option string) (lock_data : json)
    (targets : list (string * json)) :
  target_nodes lock_data = Ret targets ->
  yields (fun r => In (nodeName r) (map fst targets) /\ well_formed_result r)
    (List.length targets * 1) (List.length targets * 2)
    (main gh net tz (if only_outdated then CheckAllOutdated else CheckAll) env lock_data).
Proof.
  intros Htargets.
  unfold main.
  apply (yields_le _ (List.length targets * 1) _ (0 + (0 + (0 + (0 + List.length targets * 2)))) _);
    [lia|lia|].
  apply yields_bind; [apply quiet_upto_resolve_token|intros token].
  apply (yields_le _ (0 + List.length targets * 1) _
           (0 + (0 + (0 + List.length targets * 2))) _); [lia|lia|].
  apply yields_seq.
  { destruct (_ && _); [|apply yields_skip].
    destruct (negb _); [apply yields_notice; discriminate|apply yields_skip]. }
  assert (Hloop : forall oo,
    yields (fun r => In (nodeName r) (map fst targets) /\ well_formed_result r)
      (List.length targets * 1) (0 + (0 + List.length targets * 2))
      (execution_loop (fun name nd => check_input net tz name nd token oo) lock_data oo)).
  { intros oo.
    apply (yields_ext _ _ _
             ((if match targets with [] => true | _ => false end && negb oo
               then print LNoInputs else ret tt) ;;;
              for_each (visit (fun n d => check_input net tz n d token oo) lock_data)
                targets)).
    { intros s. unfold execution_loop, bind at 1, lift. now rewrite Htargets. }
    apply (yields_le _ (0 + List.length targets * 1) _ (0 + List.length targets * 2) _);
      [lia|lia|].
    apply yields_seq; [|apply loop_yields].
    destruct (_ && _); [apply yields_notice; discriminate|apply yields_skip]. }
  destruct only_outdated; apply Hloop.
Qed.

(** In total, a batch over [targets] shows no more results than there are
    targets, each under the name of one of them, and sends no more than
    twice as many requests. *)
Theorem batch_accounting (gh : helper) (net : network) (tz : host)
    (only_outdated : bool) (env : option string) (lock_data : json)
    (targets : list (string * json)) :
  target_nodes lock_data = Ret targets ->
  Forall (fun r => In (nodeName r) (map fst targets))
    (results_of
       (out (snd (main gh net tz (if only_outdated then CheckAllOutdated else CheckAll)
                    env lock_data io0))))
  /\ (List.length
        (results_of
           (out (snd (main gh net tz (if only_outdated then CheckAllOutdated else CheckAll)
                        env lock_data io0))))
      <= List.length targets)%nat
  /\ (List.length
        (sent (snd (main gh net tz (if only_outdated then CheckAllOutdated else CheckAll)
                      env lock_data io0)))
      <= 2 * List.length targets)%nat.
Proof.
  intros Htargets.
  pose proof (main_batch_yields gh net tz only_outdated env lock_data targets Htargets) as Hy.
  destruct (yields_at_io0 _ _ _ _ Hy) as (HP & Hl1 & Hl2).
  repeat split; try lia.
  eapply Forall_impl; [|exact HP]. intros r [H _]. exact H.
Qed.

Lemma batch_accounting_witness :
  Forall (fun r => In (nodeName r) (map fst [("a", JStr "a"); ("b", JStr "b")]))
    (results_of
       (out (snd (main HelperMissing Examples.net_one_stale Examples.plain_host
                    (if false then CheckAllOutdated else CheckAll)
                    None Examples.two_inputs io0))))
  /\ (List.length
        (results_of
           (out (snd (main HelperMissing Examples.net_one_stale Examples.plain_host
                        (if false then CheckAllOutdated else CheckAll)
                        None Examples.two_inputs io0))))
      <= List.length [("a", JStr "a"); ("b", JStr "b")])%nat
  /\ (List.length
        (sent (snd (main HelperMissing Examples.net_one_stale Examples.plain_host
                      (if false then CheckAllOutdated else CheckAll)
                      None Examples.two_inputs io0)))
      <= 2 * List.length [("a", JStr "a"); ("b", JStr "b")])%nat.
Proof.
  apply (batch_accounting HelperMissing Examples.net_one_stale Examples.plain_host false
           None Examples.two_inputs [("a", JStr "a"); ("b", JStr "b")]).
  reflexivity.
Defined.

Lemma main_yields_well_formed (gh : helper) (net : network) (tz : host) (args : mode)
    (env : option string) (lock_data : json) :
  exists nres nreq,
    yields well_formed_result nres nreq (main gh net tz args env lock_data).
Proof.
  destruct args as [flake_input| |].
  - exists 1%nat, (0 + (0 + (0 + (0 + 2))))%nat. unfold main.
    apply yields_bind; [apply quiet_upto_resolve_token|intros token].
    apply (yields_le _ (0 + 1) 1 (0 + (0 + (0 + 2))) _); [lia|lia|].
    apply yields_seq.
    { rewrite andb_false_r. apply yields_skip. }
    apply yields_bind; [apply quiet_upto_lift|intros nodes].
    apply yields_bind; [apply quiet_upto_lift|intros present].
    destruct (negb present).
    + apply (yields_le _ (0 + 0) 1 (0 + 0) 2); [lia|lia|].
      apply yields_seq; [apply yields_notice; discriminate|apply yields_raise].
    + apply (yields_le _ 1 1 (0 + (0 + 2)) 2); [lia|lia|].
      apply yields_bind; [apply quiet_upto_lift|intros nodes'].
      apply yields_bind; [apply quiet_upto_lift|intros nd].
      apply (yields_impl (fun r => nodeName r = flake_input /\ well_formed_result r));
        [tauto|apply check_input_yields].
  - destruct (target_nodes lock_data) as [targets|e] eqn:Et.
    + eexists _, _.
      apply (yields_impl
               (fun r => In (nodeName r) (map fst targets) /\ well_formed_result r));
        [tauto|].
      exact (main_batch_yields gh net tz false env lock_data targets Et).
    + exists 0%nat, (0 + (0 + 0))%nat. unfold main.
      apply yields_bind; [apply quiet_upto_resolve_token|intros token].
      apply (yields_le _ (0 + 0) 0 (0 + 0) _); [lia|lia|].
      apply yields_seq.
      { destruct (_ && _); [|apply yields_skip].
        destruct (negb _); [apply yields_notice; discriminate|apply yields_skip]. }
      apply (yields_ext _ _ _ (raise e)); [|apply yields_raise].
      intros s. unfold execution_loop, bind, lift. now rewrite Et.
  - destruct (target_nodes lock_data) as [targets|e] eqn:Et.
    + eexists _, _.
      apply (yields_impl
               (fun r => In (nodeName r) (map fst targets) /\ well_formed_result r));
        [tauto|].
      exact (main_batch_yields gh net tz true env lock_data targets Et).
    + exists 0%nat, (0 + (0 + 0))%nat. unfold main.
      apply yields_bind; [apply quiet_upto_resolve_token|intros token].
      apply (yields_le _ (0 + 0) 0 (0 + 0) _); [lia|lia|].
      apply yields_seq.
      { destruct (_ && _); [|apply yields_skip].
        destruct (negb _); [apply yields_notice; discriminate|apply yields_skip]. }
      apply (yields_ext _ _ _ (raise e)); [|apply yields_raise].
      intros s. unfold execution_loop, bind, lift. now rewrite Et.
Qed.

(** X14.  Whatever the lock, the server, the host and the mode, every
    result a run shows is well formed: a stale or ahead node has a lag
    above zero, an up-to-date or unresolvable one has none, and the two
    instants are shown for a stale node and for no other. *)
Theorem results_are_well_formed (gh : helper) (net : network) (tz : host) (args : mode)
    (env : option string) (lock_data : json) :
  Forall well_formed_result
    (results_of (out (snd (main gh net tz args env lock_data io0)))).
Proof.
  destruct (main_yields_well_formed gh net tz args env lock_data) as (nres & nreq & Hy).
  exact (proj1 (yields_at_io0 _ _ _ _ Hy)).
Qed.

(** ** The token of the helper *)

Lemma lstrip_all_space_app (pre s : string) :
  all_space pre = true -> lstrip (String.append pre s) = lstrip s.
Proof.
  induction pre as [|c tl IH]; cbn; intros H; [reflexivity|].
  apply andb_prop in H. destruct H as [Hc Htl]. rewrite Hc. auto.
Qed.

Lemma lstrip_starts_nonspace (s : string) : starts_nonspace s = true -> lstrip s = s.
Proof.
  destruct s as [|c tl]; cbn; [discriminate|].
  destruct (is_space c); [discriminate|reflexivity].
Qed.

Lemma rstrip_all_space (s : string) : all_space s = true -> rstrip s = "".
Proof.
  induction s as [|c tl IH]; cbn; intros H; [reflexivity|].
  apply andb_prop in H. destruct H as [Hc Htl]. now rewrite (IH Htl), Hc.
Qed.

Lemma rstrip_ends_nonspace_app (core post : string) :
  ends_nonspace core = true -> all_space post = true ->
  rstrip (String.append core post) = core.
Proof.
  intros Hcore Hpost. induction core as [|c tl IH]; [discriminate|].
  destruct tl as [|c' tl'].
  - cbn in Hcore |- *. rewrite (rstrip_all_space post Hpost).
    destruct (is_space c); [discriminate|reflexivity].
  - change (ends_nonspace (String c (String c' tl'))) with (ends_nonspace (String c' tl'))
      in Hcore.
    specialize (IH Hcore).
    change (String.append (String c (String c' tl')) post)
      with (String c (String.append (String c' tl') post)).
    cbn [rstrip]. rewrite IH. reflexivity.
Qed.

(** X15.  The token taken from the helper is what the helper printed
    without the white space around it, the line feed that ends the output
    in particular; white space inside the token is kept. *)
Theorem helper_token_is_stripped (pre core post : string) (s : io) :
  all_space pre = true -> all_space post = true ->
  starts_nonspace core = true -> ends_nonspace core = true ->
  get_token_from_gh_cli
    (HelperExited 0 (String.append pre (String.append core post))) s
  = (Ret (Some core), mkIo (sent s) (out s) (S (helper_runs s))).
Proof.
  intros Hpre Hpost Hstart Hend.
  unfold get_token_from_gh_cli, try_except, bind, subprocess_run. cbn.
  unfold strip. rewrite (lstrip_all_space_app pre _ Hpre).
  rewrite lstrip_starts_nonspace.
  - now rewrite (rstrip_ends_nonspace_app core post Hend Hpost).
  - destruct core as [|c tl]; [discriminate|exact Hstart].
Qed.

Lemma helper_token_is_stripped_witness :
  get_token_from_gh_cli
    (HelperExited 0 (String.append " " (String.append "gho a b" Examples.line_feed))) io0
  = (Ret (Some "gho a b"), mkIo [] [] 1).
Proof.
  apply (helper_token_is_stripped " " "gho a b" Examples.line_feed io0); reflexivity.
Defined.

(** ** Where an upstream instant comes from *)

Lemma fetch_commit_data_sound (net : network) (tz : host) (o r branch : json)
    (hdrs : list (string * string)) (s s' : io) (ts : Z) (dt : string) :
  fetch_commit_data net tz o r branch hdrs s = (Ret (Some (ts, dt)), s') ->
  exists status data c1 c2 committer date,
    net (sent s) (mkRequest (BranchUrl o r branch) hdrs) = Response status (Some data)
    /\ (400 <=? status) && (status <? 600) = false
    /\ getitem data "commit" = Ret c1
    /\ getitem c1 "commit" = Ret c2
    /\ getitem c2 "committer" = Ret committer
    /\ getitem committer "date" = Ret (JStr date)
    /\ strptime_timestamp date = Some ts
    /\ utc_astimezone tz ts = Some dt.
Proof.
  unfold fetch_commit_data, try_except, bind, requests_get, checked_json, lift, ret, raise.
  destruct (net (sent s) (mkRequest (BranchUrl o r branch) hdrs)) as [|status body];
    cbn; [discriminate|].
  destruct ((400 <=? status) && (status <? 600)) eqn:Est; cbn; [discriminate|].
  destruct body as [data|]; cbn; [|discriminate].
  destruct (getitem data "commit") as [c1|e] eqn:E1; cbn;
    [|destruct (is_RequestException e); discriminate].
  destruct (getitem c1 "commit") as [c2|e] eqn:E2; cbn;
    [|destruct (is_RequestException e); discriminate].
  destruct (getitem c2 "committer") as [c3|e] eqn:E3; cbn;
    [|destruct (is_RequestException e); discriminate].
  destruct (getitem c3 "date") as [d|e] eqn:E4; cbn;
    [|destruct (is_RequestException e); discriminate].
  destruct (parse_date d) as [ts'|e] eqn:E5; cbn;
    [|destruct (is_RequestException e); discriminate].
  destruct (utc_astimezone tz ts') as [dt'|] eqn:E6; cbn; [|discriminate].
  intros H. inversion H; subst.
  unfold parse_date in E5. destruct d as [| | |date| |]; try discriminate.
  destruct (strptime_timestamp date) as [t|] eqn:E7; [|discriminate].
  inversion E5; subst.
  exists status, data, c1, c2, c3, date. repeat split; assumption.
Qed.

(** X16.  An upstream instant is never made up: when [get_upstream_info]
    returns one, the last request sent was the one for a branch, the server
    answered it with a status outside 400..599 and a JSON body, and the
    instant is the date found at [commit.commit.committer.date] of that
    body, which [strptime] accepted. *)
Theorem upstream_instant_is_the_parsed_date (net : network) (tz : host) (o r hint : json)
    (token : option string) (s s' : io) (ts : Z) (dt : string) :
  get_upstream_info net tz o r hint token s = (Ret (Some (ts, dt)), s') ->
  exists hist branch status data c1 c2 committer date,
    sent s' = hist ++ [mkRequest (BranchUrl o r branch) (auth_headers token)]
    /\ net hist (mkRequest (BranchUrl o r branch) (auth_headers token))
       = Response status (Some data)
    /\ (400 <=? status) && (status <? 600) = false
    /\ getitem data "commit" = Ret c1
    /\ getitem c1 "commit" = Ret c2
    /\ getitem c2 "committer" = Ret committer
    /\ getitem committer "date" = Ret (JStr date)
    /\ strptime_timestamp date = Some ts.
Proof.
  unfold get_upstream_info, bind.
  destruct (determine_branch net o r hint (auth_headers token) s) as [[[branch|]|e] s1];
    try discriminate.
  intros Hf.
  destruct (fetch_commit_data_run net tz o r branch (auth_headers token) s1) as (res & Hrun).
  pose proof Hf as Hf'. rewrite Hrun in Hf'. inversion Hf'; subst.
  destruct (fetch_commit_data_sound net tz o r branch (auth_headers token) s1 _ ts dt Hf)
    as (status & data & c1 & c2 & c3 & date & H1 & H2 & H3 & H4 & H5 & H6 & H7 & _).
  exists (sent s1), branch, status, data, c1, c2, c3, date.
  repeat split; assumption.
Qed.

Lemma upstream_instant_is_the_parsed_date_witness :
  exists hist branch status data c1 c2 committer date,
    [mkRequest (RepoUrl (JStr "o") (JStr "r")) [];
     mkRequest (BranchUrl (JStr "o") (JStr "r") (JStr "main")) []]
    = hist ++ [mkRequest (BranchUrl (JStr "o") (JStr "r") branch) (auth_headers None)]
    /\ Examples.net_dated "1970-01-01T00:16:41Z" hist
         (mkRequest (BranchUrl (JStr "o") (JStr "r") branch) (auth_headers None))
       = Response status (Some data)
    /\ (400 <=? status) && (status <? 600) = false
    /\ getitem data "commit" = Ret c1
    /\ getitem c1 "commit" = Ret c2
    /\ getitem c2 "committer" = Ret committer
    /\ getitem committer "date" = Ret (JStr date)
    /\ strptime_timestamp date = Some 1001.
Proof.
  apply (upstream_instant_is_the_parsed_date (Examples.net_dated "1970-01-01T00:16:41Z")
           Examples.plain_host (JStr "o") (JStr "r") JNull None io0
           (mkIo [mkRequest (RepoUrl (JStr "o") (JStr "r")) [];
                  mkRequest (BranchUrl (JStr "o") (JStr "r") (JStr "main")) []] [] 0)
           1001 "upstream").
  reflexivity.
Defined.

(** ** Nodes do not depend on one another *)

Lemma isolated_lift {A} (r : res A) : isolated (lift r).
Proof.
  exists r, [], [], 0%nat. intros [hist o h]. unfold lift. cbn. now rewrite !app_nil_r.
Qed.

Lemma isolated_print (l : line) : isolated (print l).
Proof.
  exists (Ret tt), [], [l], 0%nat. intros [hist o h]. unfold print. cbn.
  now rewrite app_nil_r.
Qed.

Lemma isolated_bind {A B} (c : M A) (f : A -> M B) :
  isolated c -> (forall a, isolated (f a)) -> isolated (bind c f).
Proof.
  intros (r & reqs & L & n & Hrun) Hf. destruct r as [a|e].
  - destruct (Hf a) as (r' & reqs' & L' & n' & Hrun').
    exists r', (reqs ++ reqs'), (L ++ L'), (n' + n)%nat.
    intros s. unfold bind. rewrite Hrun, Hrun'. cbn.
    now rewrite !app_assoc, Nat.add_assoc.
  - exists (Raise e), reqs, L, n. intros s. unfold bind. now rewrite Hrun.
Qed.

Lemma isolated_try {A} (c handler : M A) (handles : exn -> bool) :
  isolated c -> isolated handler -> isolated (try_except c handles handler).
Proof.
  intros (r & reqs & L & n & Hrun) (r' & reqs' & L' & n' & Hrun').
  destruct r as [a|e].
  - exists (Ret a), reqs, L, n. intros s. unfold try_except. now rewrite Hrun.
  - destruct (handles e) eqn:He.
    + exists r', (reqs ++ reqs'), (L ++ L'), (n' + n)%nat.
      intros s. unfold try_except. rewrite Hrun, He, Hrun'. cbn.
      now rewrite !app_assoc, Nat.add_assoc.
    + exists (Raise e), reqs, L, n. intros s. unfold try_except. now rewrite Hrun, He.
Qed.

Lemma isolated_requests_get (net : network) (u : url) (hdrs : list (string * string)) :
  stable net -> isolated (requests_get net u hdrs).
Proof.
  intros Hst.
  exists (match net [] (mkRequest u hdrs) with
          | NoResponse => Raise RequestException
          | resp => Ret resp
          end), [mkRequest u hdrs], [], 0%nat.
  intros s. unfold requests_get. rewrite (Hst (sent s) []). cbn.
  destruct (net [] (mkRequest u hdrs)); cbn; now rewrite app_nil_r.
Qed.

Lemma isolated_checked_json (resp : http_result) : isolated (checked_json resp).
Proof.
  destruct resp as [|status body]; cbn; [apply (isolated_lift (Raise RequestException))|].
  destruct ((400 <=? status) && (status <? 600)); [apply (isolated_lift (Raise HTTPError))|].
  destruct body as [j|];
    [apply (isolated_lift (Ret j))|apply (isolated_lift (Raise JSONDecodeError))].
Qed.

(** X17.  With a server whose answers do not depend on the requests made
    before, what [check_input] does for a node (how it ends, what it sends,
    what it prints) is the same whatever was checked before that node: no
    node bears on another. *)
Theorem nodes_are_independent (net : network) (tz : host) (name : string)
    (node_data : json) (token : option string) (only_outdated : bool) :
  stable net ->
  exists r reqs L,
    forall s, check_input net tz name node_data token only_outdated s
              = (r, mkIo (sent s ++ reqs) (out s ++ L) (helper_runs s)).
Proof.
  intros Hst.
  assert (Hiso : isolated (check_input net tz name node_data token only_outdated)).
  { unfold check_input.
    apply isolated_bind; [apply isolated_lift|].
    intros [p|]; [|apply (isolated_lift (Ret tt))].
    apply isolated_bind.
    - unfold get_upstream_info. apply isolated_bind.
      + unfold determine_branch.
        destruct (negb (truthy (branch_hint p))); [|apply (isolated_lift (Ret _))].
        apply isolated_try; [|apply (isolated_lift (Ret _))].
        apply isolated_bind; [apply isolated_requests_get; exact Hst|intros resp].
        apply isolated_bind; [apply isolated_checked_json|intros body].
        apply isolated_bind; [apply isolated_lift|intros b].
        apply (isolated_lift (Ret _)).
      + intros [branch|]; [|apply (isolated_lift (Ret _))].
        unfold fetch_commit_data.
        apply isolated_try; [|apply (isolated_lift (Ret _))].
        apply isolated_bind; [apply isolated_requests_get; exact Hst|intros resp].
        apply isolated_bind; [apply isolated_checked_json|intros data].
        repeat (apply isolated_bind; [apply isolated_lift|intros ?]).
        apply (isolated_lift (Ret _)).
    - intros [[up up_dt]|].
      + unfold report.
        destruct (only_outdated && negb (downstream_ts p <? up));
          [apply (isolated_lift (Ret tt))|].
        apply isolated_bind; [apply isolated_print|intros _].
        apply isolated_bind; [|intros _; apply isolated_print].
        destruct (downstream_ts p <? up).
        * repeat (apply isolated_bind; [apply isolated_print|intros _]).
          apply isolated_print.
        * destruct (downstream_ts p >? up); apply isolated_print.
      + destruct (negb only_outdated); [|apply (isolated_lift (Ret tt))].
        apply isolated_bind; [apply isolated_print|intros _; apply isolated_print]. }
  destruct Hiso as (r & reqs & L & n & Hrun).
  exists r, reqs, L. intros s. rewrite Hrun. f_equal. f_equal.
  pose proof (same_helper_runs_check_input net tz name node_data token only_outdated s) as Hh.
  unfold same_helper_runs in Hh. rewrite Hrun in Hh. cbn in Hh. exact Hh.
Qed.

Lemma nodes_are_independent_witness :
  exists r reqs L,
    forall s, check_input Examples.net_one_stale Examples.plain_host "a"
                (Examples.github_node "o" "a" 1000) None false s
              = (r, mkIo (sent s ++ reqs) (out s ++ L) (helper_runs s)).
Proof.
  apply (nodes_are_independent Examples.net_one_stale Examples.plain_host "a"
           (Examples.github_node "o" "a" 1000) None false).
  intros hist hist' q. reflexivity.
Defined.

(** ** Witnesses of earlier lemmas, and the date that is not one *)

Lemma v2_fallback_skips_root_witness :
  v2_fallback Examples.check_plain Examples.locked_root (JStr "root") io0
  = (print LNoRootInputs ;;;
     for_each (on_pair Examples.check_plain) (claimed_fallback Examples.locked_root)) io0.
Proof.
  apply (v2_fallback_skips_root Examples.check_plain Examples.locked_root "root"
           [("a", Examples.github_node "o" "a" 1000);
            ("root", Examples.github_node "o" "self" 1000)] io0); reflexivity.
Defined.

Lemma missing_default_branch_request_witness :
  exists res,
    get_upstream_info Examples.net_without_default_branch Examples.plain_host
      (JStr "o") (JStr "r") JNull None io0
    = (res,
       mkIo ([] ++ [mkRequest (RepoUrl (JStr "o") (JStr "r")) (auth_headers None);
                    mkRequest (BranchUrl (JStr "o") (JStr "r") JNull) (auth_headers None)])
            [] 0).
Proof.
  apply (missing_default_branch_request Examples.net_without_default_branch
           Examples.plain_host (JStr "o") (JStr "r") JNull None io0 200
           [("name", JStr "r")]); reflexivity.
Defined.

(** X19.  A date that [strptime] refuses is not a failure that
    [get_upstream_info] handles: whatever the server and the rest of its
    answer, the fetch of the branch ends with [ValueError] after its one
    request, and so does whatever called it. *)
Theorem unparsable_date_raises (net : network) (tz : host) (o r branch : json)
    (hdrs : list (string * string)) (s : io) (status : Z)
    (data c1 c2 committer : json) (date : string) :
  net (sent s) (mkRequest (BranchUrl o r branch) hdrs) = Response status (Some data) ->
  (400 <=? status) && (status <? 600) = false ->
  getitem data "commit" = Ret c1 ->
  getitem c1 "commit" = Ret c2 ->
  getitem c2 "committer" = Ret committer ->
  getitem committer "date" = Ret (JStr date) ->
  strptime_timestamp date = None ->
  fetch_commit_data net tz o r branch hdrs s
  = (Raise ValueError,
     mkIo (sent s ++ [mkRequest (BranchUrl o r branch) hdrs]) (out s) (helper_runs s)).
Proof.
  intros Hnet Hstatus H1 H2 H3 H4 Hdate.
  unfold fetch_commit_data, try_except, bind, requests_get.
  rewrite Hnet. cbn [checked_json]. rewrite Hstatus.
  unfold ret, lift. rewrite H1, H2, H3, H4. cbn [parse_date]. rewrite Hdate.
  reflexivity.
Qed.

Lemma unparsable_date_raises_witness :
  fetch_commit_data Examples.net_one_malformed Examples.plain_host
    (JStr "o") (JStr "a") (JStr "main") [] io0
  = (Raise ValueError,
     mkIo ([] ++ [mkRequest (BranchUrl (JStr "o") (JStr "a") (JStr "main")) []]) [] 0).
Proof.
  apply (unparsable_date_raises Examples.net_one_malformed Examples.plain_host
           (JStr "o") (JStr "a") (JStr "main") [] io0 200
           (Examples.commit_body "2024-02-29T12:00:00+00:00")
           (JObj [("commit",
                   JObj [("committer", JObj [("date", JStr "2024-02-29T12:00:00+00:00")])])])
           (JObj [("committer", JObj [("date", JStr "2024-02-29T12:00:00+00:00")])])
           (JObj [("date", JStr "2024-02-29T12:00:00+00:00")])
           "2024-02-29T12:00:00+00:00"); reflexivity.
Defined.

(** ** What a batch does for each target *)








